(** * semgrep-action: finding identity, reconciliation and git head handling

    A shallow embedding of [semgrep_agent/findings.py] and of
    [fix_head_for_github] from [semgrep_agent/semgrepdep.py].

    Python [str] values are represented by their UTF-8 encoding as Rocq
    [string]s.  The characters the code inspects (space, tab, newline) are
    ASCII, so they never occur inside a multi-byte sequence and the
    byte-level functions below agree with the code-point-level ones. *)

From Stdlib Require Import ZArith List Bool Lia Permutation.
From Stdlib Require Import Strings.Ascii Strings.String Numbers.DecimalString.
Import ListNotations.

Open Scope string_scope.
Open Scope Z_scope.

(* ================================================================== *)
(** ** Python values, exceptions and results *)

(** The exceptions the modelled code can raise. *)
Inductive exn : Type :=
| KeyError (key : string)
| TypeError (msg : string)
| AttributeError (name : string)
| OverflowError
| ErrorReturnCode (argv : list string)
| Raised (what : string).

(** Outcome of a call that may raise. *)
Inductive result (A : Type) : Type :=
| Ok (a : A)
| Err (e : exn).
Arguments Ok {A} a.
Arguments Err {A} e.

Set Warnings "-register-all".

(** JSON-like values, as found in rule metadata ([Mapping[str, Any]]).
    A float is carried by its IEEE-754 bit pattern; no function below
    looks inside one. *)
Inductive pyval : Type :=
| PNone
| PBool (b : bool)
| PInt (z : Z)
| PFloat (bits : Z)
| PStr (s : string)
| PList (l : list pyval)
| PDict (d : list (string * pyval)).

(** A [dict], in insertion order. *)
Definition pydict (K V : Type) : Type := list (K * V).

(** [d.values()] *)
Definition dict_values {K V : Type} (d : pydict K V) : list V := map snd d.

(** [d.get(k)], for string keys *)
Fixpoint dict_get {V : Type} (d : pydict string V) (k : string) : option V :=
  match d with
  | [] => None
  | (k', v) :: d' => if String.eqb k' k then Some v else dict_get d' k
  end.

(** [d[k] = v]: replaces in place when the key is present, appends
    otherwise. *)
Fixpoint dict_set {V : Type} (d : pydict string V) (k : string) (v : V)
  : pydict string V :=
  match d with
  | [] => [(k, v)]
  | (k', v') :: d' =>
      if String.eqb k' k then (k', v) :: d' else (k', v') :: dict_set d' k v
  end.

(* ================================================================== *)
(** ** Strings *)

Module PyStr.

Definition newline : ascii := "010"%char.
Definition tab : ascii := "009"%char.
Definition space : ascii := " "%char.

(** The character class [[ \t]] of the regular expressions in
    [textwrap]. *)
Definition is_indent_char (c : ascii) : bool :=
  Ascii.eqb c space || Ascii.eqb c tab.

Fixpoint all_chars (p : ascii -> bool) (s : string) : bool :=
  match s with
  | EmptyString => true
  | String c s' => p c && all_chars p s'
  end.

(** [s[n:]] *)
Fixpoint drop (n : nat) (s : string) : string :=
  match n, s with
  | O, _ => s
  | S _, EmptyString => EmptyString
  | S n', String _ s' => drop n' s'
  end.

(** [s.split("\n")] *)
Fixpoint split_lines (s : string) : list string :=
  match s with
  | EmptyString => [EmptyString]
  | String c s' =>
      if Ascii.eqb c newline then EmptyString :: split_lines s'
      else match split_lines s' with
           | l :: ls => String c l :: ls
           | [] => [String c EmptyString]
           end
  end.

(** ["\n".join(ls)] *)
Definition join_lines (ls : list string) : string :=
  String.concat (String newline EmptyString) ls.

(** [x in s] for strings: substring test. *)
Fixpoint contains (needle s : string) : bool :=
  String.prefix needle s ||
  match s with
  | EmptyString => false
  | String _ s' => contains needle s'
  end.

(** The longest common prefix of two strings. *)
Fixpoint common_prefix (a b : string) : string :=
  match a, b with
  | String x a', String y b' =>
      if Ascii.eqb x y then String x (common_prefix a' b') else EmptyString
  | _, _ => EmptyString
  end.

(** Lines: strings without a newline. *)
Definition no_newline (l : string) : bool :=
  all_chars (fun c => negb (Ascii.eqb c newline)) l.

(** [repr(n)] / [str(n)] for an [int]. *)
Definition repr_int (n : Z) : string := NilZero.string_of_int (Z.to_int n).

End PyStr.

(* ================================================================== *)
(** ** [textwrap.dedent] *)

Module Textwrap.
Import PyStr.

(** [_whitespace_only_re.sub('', text)], one line at a time: the pattern
    [^[ \t]+$] (multi-line) matches exactly the lines made of spaces and
    tabs only. *)
Definition strip_whitespace_only (l : string) : string :=
  if all_chars is_indent_char l then EmptyString else l.

(** Group 1 of [_leading_whitespace_re] on a line (zero or more spaces
    and tabs at the start of the line, followed by a character that is
    neither space, tab nor newline): the leading run of spaces and tabs. *)
Fixpoint leading_whitespace (l : string) : string :=
  match l with
  | EmptyString => EmptyString
  | String c l' =>
      if is_indent_char c then String c (leading_whitespace l')
      else EmptyString
  end.

(** Whether [_leading_whitespace_re] matches on the line at all: some
    character other than space and tab follows the leading run. *)
Definition has_content (l : string) : bool :=
  negb (all_chars is_indent_char l).

(** One iteration of the [for indent in indents] loop. *)
Definition margin_step (margin : option string) (indent : string)
  : option string :=
  match margin with
  | None => Some indent
  | Some m =>
      if String.prefix m indent then Some m
      else if String.prefix indent m then Some indent
      else Some (common_prefix m indent)
  end.

Definition find_margin (indents : list string) : option string :=
  fold_left margin_step indents None.

(** [re.sub(r'(?m)^' + margin, '', text)], one line at a time. *)
Definition remove_margin (margin l : string) : string :=
  if String.prefix margin l then drop (String.length margin) l else l.

Definition dedent (text : string) : string :=
  let lines := map strip_whitespace_only (split_lines text) in
  let indents := map leading_whitespace (filter has_content lines) in
  match find_margin indents with
  | Some margin =>
      if negb (String.eqb margin EmptyString)
      then join_lines (map (remove_margin margin) lines)
      else join_lines lines
  | None => join_lines lines
  end.

(** The margin [dedent] takes off the given lines: the empty string when
    it finds none. *)
Definition margin_of (lines : list string) : string :=
  match find_margin (map leading_whitespace (filter has_content lines)) with
  | Some margin => margin
  | None => EmptyString
  end.

(** A line once whitespace-only lines were emptied: empty, or with a
    character other than space and tab. *)
Definition clean (l : string) : Prop :=
  l = EmptyString \/ has_content l = true.

(** A line moved right by [w]; an empty line stays empty. *)
Definition reindent (w l : string) : string :=
  if String.eqb l EmptyString then EmptyString else w ++ l.

(** Uniform re-indentation of a text: every line receives the prefix
    (as an editor shifting a block does). *)
Definition indent_all (prefix text : string) : string :=
  join_lines (map (String.append prefix) (split_lines text)).

(** [text'] is [text] with the margin [w] added in front of its lines;
    lines of spaces and tabs only may carry any such run on either side
    (editors and [textwrap.indent] leave blank lines alone). *)
Definition indented_by (w text text' : string) : Prop :=
  Forall2
    (fun l l' =>
       l' = w ++ l \/ (has_content l = false /\ has_content l' = false))
    (split_lines text) (split_lines text').

(** What the specification means by a dedented text, said without the
    algorithm: [stored] is [raw] with its common margin taken off.  Line
    by line, a line of [raw] with content is the margin followed by the
    line of [stored], a line of spaces and tabs only is empty in
    [stored]; the margin is made of spaces and tabs, and every run of
    spaces and tabs that starts all the lines with content starts the
    margin too (it is the longest one). *)
Definition dedented (raw stored : string) : Prop :=
  exists margin,
    all_chars is_indent_char margin = true
    /\ Forall2
         (fun l l' =>
            if has_content l then l = margin ++ l' else l' = EmptyString)
         (split_lines raw) (split_lines stored)
    /\ (forall w,
          all_chars is_indent_char w = true ->
          Forall (fun l => has_content l = true -> String.prefix w l = true)
                 (split_lines raw) ->
          existsb has_content (split_lines raw) = true ->
          String.prefix w margin = true).

End Textwrap.

(* ================================================================== *)
(** ** Integers as bytes, hexadecimal rendering, the built-in [hash] *)

Module PyInt.

(** The [length] base-256 digits of [n], most significant first. *)
Fixpoint digits_big (length : nat) (n : Z) : list Z :=
  match length with
  | O => []
  | S k => (digits_big k (n / 256) ++ [n mod 256])%list
  end.

(** [int.to_bytes(n, length=length, byteorder="big", signed=False)] *)
Definition to_bytes (n : Z) (length : nat) : result (list Z) :=
  if (n <? 0) || (256 ^ Z.of_nat length <=? n) then Err OverflowError
  else Ok (digits_big length n).

Definition hexdigit (d : Z) : ascii :=
  nth (Z.to_nat d) (list_ascii_of_string "0123456789abcdef") "0"%char.

(** [str(binascii.hexlify(bs), "ascii")] *)
Fixpoint hexlify (bs : list Z) : string :=
  match bs with
  | [] => EmptyString
  | b :: bs' => String (hexdigit (b / 16)) (String (hexdigit (b mod 16)) (hexlify bs'))
  end.

(** CPython's hash of an [int]: reduction modulo the Mersenne prime
    [2^61 - 1] (64-bit builds), sign preserved, [-1] avoided. *)
Definition PyHASH_MODULUS : Z := 2 ^ 61 - 1.

Definition long_hash (n : Z) : Z :=
  let h := Z.sgn n * (Z.abs n mod PyHASH_MODULUS) in
  if h =? -1 then -2 else h.

(** What the built-in [hash(x)] makes of the integer [r] returned by a
    user-defined [__hash__]: [r] itself when it fits a signed 64-bit
    word, its [int] hash otherwise; [-1] is reserved. *)
Definition builtin_hash (r : Z) : Z :=
  let h := if (- 2 ^ 63 <=? r) && (r <? 2 ^ 63) then r else long_hash r in
  if h =? -1 then -2 else h.

End PyInt.

(* ================================================================== *)
(** ** Data model of [findings.py] *)

(** [datetime.datetime]: calendar fields and the UTC offset of an aware
    value, in seconds. *)
Record datetime : Type := {
  year : Z; month : Z; day : Z;
  hour : Z; minute : Z; second : Z; microsecond : Z;
  utcoffset : option Z
}.

Record FindingKey : Type := {
  key_check_id : string;
  key_path : string;
  key_syntactic_context : string
}.

(** A [Finding] as stored: [syntactic_context] holds the value after its
    converter ran.  Instances are made by [Finding_init] only. *)
Record Finding : Type := {
  check_id : string;
  path : string;
  line : Z;
  column : Z;
  message : string;
  severity : Z;
  index : Z;
  syntactic_context : string;
  end_line : option Z;
  end_column : option Z;
  commit_date : option datetime;
  metadata : pydict string pyval
}.

(** The generated [__init__]: stores its arguments, running the
    [textwrap.dedent] converter on [syntactic_context]. *)
Definition Finding_init (check_id path : string) (line column : Z)
    (message : string) (severity index : Z) (syntactic_context : string)
    (end_line end_column : option Z) (commit_date : option datetime)
    (metadata : pydict string pyval) : Finding :=
  {| check_id := check_id; path := path; line := line; column := column;
     message := message; severity := severity; index := index;
     syntactic_context := Textwrap.dedent syntactic_context;
     end_line := end_line; end_column := end_column;
     commit_date := commit_date; metadata := metadata |}.

(** [attr.evolve(finding, index=index)]: a new instance through
    [__init__], every other argument read from [finding]. *)
Definition evolve_index (finding : Finding) (index : Z) : Finding :=
  Finding_init (check_id finding) (path finding) (line finding)
    (column finding) (message finding) (severity finding) index
    (syntactic_context finding) (end_line finding) (end_column finding)
    (commit_date finding) (metadata finding).

(** The generated [__eq__]: the tuples of the attributes declared with
    [eq] left on, which are [check_id], [path] and [syntactic_context]
    ([line], [column], [message], [severity], [index], [end_line],
    [end_column], [commit_date], [metadata] carry [eq=False]). *)
Definition Finding_eq (f g : Finding) : bool :=
  String.eqb (check_id f) (check_id g)
  && String.eqb (path f) (path g)
  && String.eqb (syntactic_context f) (syntactic_context g).

(** The attributes the specification calls identity-relevant. *)
Definition identity (f : Finding) : string * string * Z * string :=
  (check_id f, path f, index f, syntactic_context f).

(** [x in container] for a string [x]. *)
Definition py_in (x : string) (container : pyval) : result bool :=
  match container with
  | PList l =>
      Ok (existsb (fun e => match e with
                            | PStr s => String.eqb x s
                            | _ => false
                            end) l)
  | PStr s => Ok (PyStr.contains x s)
  | PDict d => Ok (existsb (fun kv => String.eqb x (fst kv)) d)
  | _ => Err (TypeError "argument is not iterable")
  end.

Definition is_blocking (self : Finding) : result bool :=
  py_in "block"
    (match dict_get (metadata self) "dev.semgrep.actions" with
     | Some v => v
     | None => PList [PStr "block"]
     end).

Definition semgrep_severity_to_int (severity : string) : Z :=
  if String.eqb severity "ERROR" then 2
  else if String.eqb severity "WARNING" then 1
  else 0.

(** A raw match record of the analysis engine, with the fields
    [from_semgrep_result] reads.  Records lacking one of them (a
    [KeyError] in the code) are outside this type. *)
Record Position : Type := { pos_line : Z; pos_col : Z }.

Record Extra : Type := {
  lines : string;
  extra_message : string;
  extra_severity : string;
  extra_metadata : pydict string pyval
}.

Record SemgrepResult : Type := {
  result_check_id : string;
  result_path : string;
  start : Position;
  end_ : Position;
  extra : Extra
}.

Definition from_semgrep_result (result : SemgrepResult)
    (committed_datetime : option datetime) : FindingKey * Finding :=
  let check_id := result_check_id result in
  let path := result_path result in
  let syntactic_context := lines (extra result) in
  let key := {| key_check_id := check_id; key_path := path;
                key_syntactic_context := syntactic_context |} in
  let finding :=
    Finding_init check_id path
      (pos_line (start result))
      (pos_col (start result))
      (extra_message (extra result))
      (semgrep_severity_to_int (extra_severity (extra result)))
      0
      syntactic_context
      (Some (pos_col (end_ result)))
      (Some (pos_col (end_ result)))
      committed_datetime
      (extra_metadata (extra result)) in
  (key, finding).

(** Values of the dictionary [attr.asdict] builds from a [Finding]. *)
Inductive attr_value : Type :=
| VNone
| VInt (z : Z)
| VStr (s : string)
| VDatetime (d : datetime)
| VMapping (m : pydict string pyval).

Definition is_None (v : attr_value) : bool :=
  match v with VNone => true | _ => false end.

Definition of_option {A : Type} (inj : A -> attr_value) (o : option A)
  : attr_value :=
  match o with Some a => inj a | None => VNone end.

(** [attr.asdict(self)]: one entry per attribute, in declaration order. *)
Definition asdict (self : Finding) : pydict string attr_value :=
  [ ("check_id", VStr (check_id self));
    ("path", VStr (path self));
    ("line", VInt (line self));
    ("column", VInt (column self));
    ("message", VStr (message self));
    ("severity", VInt (severity self));
    ("index", VInt (index self));
    ("syntactic_context", VStr (syntactic_context self));
    ("end_line", of_option VInt (end_line self));
    ("end_column", of_option VInt (end_column self));
    ("commit_date", of_option VDatetime (commit_date self));
    ("metadata", VMapping (metadata self)) ].

(** A Python [set] of findings, listed in insertion order.  Two members
    are the same element when their hashes agree and [__eq__] holds. *)
Definition pyset : Type := list Finding.

Record FindingSets : Type := {
  baseline_map : pydict FindingKey (list Finding);
  current_map : pydict FindingKey (list Finding)
}.

(** [enumerate(l)] *)
Definition enumerate {A : Type} (l : list A) : list (Z * A) :=
  combine (map Z.of_nat (seq 0 (List.length l))) l.

(** The library functions the code calls and this development leaves
    open: [pymmh3.hash128] with its default seed and architecture, on the
    UTF-8 encoding of its argument; [repr] of a [str], as [str(tuple)]
    renders its string members; [datetime.isoformat]. *)
Class Runtime : Type := {
  hash128 : string -> Z;
  repr_str : string -> string;
  isoformat : datetime -> string
}.

Section Findings.

Context {rt : Runtime}.

(** [str((a, b, i, c))] *)
Definition str_tuple (a b : string) (i : Z) (c : string) : string :=
  "(" ++ repr_str a ++ ", " ++ repr_str b ++ ", " ++ PyStr.repr_int i
      ++ ", " ++ repr_str c ++ ")".

Definition syntactic_identifier_int (self : Finding) : Z :=
  let str_id :=
    str_tuple (check_id self) (path self) (index self)
              (syntactic_context self) in
  hash128 str_id.

Definition syntactic_identifier_str (self : Finding) : result string :=
  match PyInt.to_bytes (syntactic_identifier_int self) 16 with
  | Ok id_bytes => Ok (PyInt.hexlify id_bytes)
  | Err e => Err e
  end.

(** [Finding.__hash__] *)
Definition Finding_hash (self : Finding) : Z :=
  syntactic_identifier_int self.

(** [hash(finding)], as sets and dictionaries see it. *)
Definition hash_of (f : Finding) : Z := PyInt.builtin_hash (Finding_hash f).

Definition to_dict (self : Finding) : result (pydict string attr_value) :=
  let d := asdict self in
  let d := filter (fun kv => negb (is_None (snd kv))) d in
  match syntactic_identifier_str self with
  | Err e => Err e
  | Ok sid =>
      let d := dict_set d "syntactic_id" (VStr sid) in
      match dict_get d "commit_date" with
      | None => Err (KeyError "commit_date")
      | Some (VDatetime dt) =>
          Ok (dict_set d "commit_date" (VStr (isoformat dt)))
      | Some _ => Err (AttributeError "isoformat")
      end
  end.

(** Set membership test: same hash, then [__eq__]. *)
Definition same_element (f g : Finding) : bool :=
  (hash_of f =? hash_of g) && Finding_eq f g.

Definition set_contains (s : pyset) (x : Finding) : bool :=
  existsb (fun y => same_element y x) s.

(** [s.add(x)] *)
Definition set_add (s : pyset) (x : Finding) : pyset :=
  if set_contains s x then s else (s ++ [x])%list.

(** [set(iterable)] *)
Definition set_of (l : list Finding) : pyset := fold_left set_add l [].

(** [s - other] *)
Definition set_difference (s other : pyset) : pyset :=
  filter (fun x => negb (set_contains other x)) s.

Definition _map_to_set (mapping : pydict FindingKey (list Finding)) : pyset :=
  set_of
    (flat_map
       (fun findings_for_key =>
          map (fun p => evolve_index (snd p) (fst p))
              (enumerate findings_for_key))
       (dict_values mapping)).

Definition current_set (self : FindingSets) : pyset :=
  _map_to_set (current_map self).

Definition baseline_set (self : FindingSets) : pyset :=
  _map_to_set (baseline_map self).

Definition expensive_new (self : FindingSets) : pyset :=
  set_difference (current_set self) (baseline_set self).

End Findings.

(* ================================================================== *)
(** ** MurmurHash3, x64 128-bit variant

    The algorithm [pymmh3.hash128] runs with its defaults (seed 0, x64
    architecture); an instance for the [hash128] parameter above. *)

Module Murmur3.

Definition mask64 : Z := 0xFFFFFFFFFFFFFFFF.
Definition c1 : Z := 0x87c37b91114253d5.
Definition c2 : Z := 0x4cf5ad432745937f.

Definition rotl64 (x r : Z) : Z :=
  Z.land (Z.lor (Z.shiftl x r) (Z.shiftr x (64 - r))) mask64.

Definition fmix (k : Z) : Z :=
  let k := Z.lxor k (Z.shiftr k 33) in
  let k := Z.land (k * 0xff51afd7ed558ccd) mask64 in
  let k := Z.lxor k (Z.shiftr k 33) in
  let k := Z.land (k * 0xc4ceb9fe1a85ec53) mask64 in
  Z.lxor k (Z.shiftr k 33).

(** Little-endian value of a run of bytes. *)
Definition le_bytes (bs : list Z) : Z :=
  fold_right (fun b acc => Z.lor b (Z.shiftl acc 8)) 0 bs.

Definition mix_k1 (k1 : Z) : Z :=
  let k1 := Z.land (c1 * k1) mask64 in
  let k1 := rotl64 k1 31 in
  Z.land (c2 * k1) mask64.

Definition mix_k2 (k2 : Z) : Z :=
  let k2 := Z.land (c2 * k2) mask64 in
  let k2 := rotl64 k2 33 in
  Z.land (c1 * k2) mask64.

(** The body loop over [nblocks] 16-byte blocks; returns the state and
    the remaining tail. *)
Fixpoint blocks (nblocks : nat) (key : list Z) (h1 h2 : Z)
  : Z * Z * list Z :=
  match nblocks with
  | O => (h1, h2, key)
  | S n =>
      let k1 := le_bytes (firstn 8 key) in
      let k2 := le_bytes (firstn 8 (skipn 8 key)) in
      let h1 := Z.lxor h1 (mix_k1 k1) in
      let h1 := rotl64 h1 27 in
      let h1 := Z.land (h1 + h2) mask64 in
      let h1 := Z.land (h1 * 5 + 0x52dce729) mask64 in
      let h2 := Z.lxor h2 (mix_k2 k2) in
      let h2 := rotl64 h2 31 in
      let h2 := Z.land (h1 + h2) mask64 in
      let h2 := Z.land (h2 * 5 + 0x38495ab5) mask64 in
      blocks n (skipn 16 key) h1 h2
  end.

Definition hash128_bytes (key : list Z) (seed : Z) : Z :=
  let length := Z.of_nat (List.length key) in
  let nblocks := Nat.div (List.length key) 16 in
  let '(h1, h2, tail) := blocks nblocks key seed seed in
  let tail_size := List.length tail in
  let k2 := le_bytes (skipn 8 tail) in
  let h2 := if Nat.ltb 8 tail_size then Z.lxor h2 (mix_k2 k2) else h2 in
  let k1 := le_bytes (firstn 8 tail) in
  let h1 := if Nat.ltb 0 tail_size then Z.lxor h1 (mix_k1 k1) else h1 in
  let h1 := Z.lxor h1 length in
  let h2 := Z.lxor h2 length in
  let h1 := Z.land (h1 + h2) mask64 in
  let h2 := Z.land (h1 + h2) mask64 in
  let h1 := fmix h1 in
  let h2 := fmix h2 in
  let h1 := Z.land (h1 + h2) mask64 in
  let h2 := Z.land (h1 + h2) mask64 in
  Z.lor (Z.shiftl h2 64) h1.

Definition bytes_of_string (s : string) : list Z :=
  map (fun c => Z.of_N (N_of_ascii c)) (list_ascii_of_string s).

Definition hash128 (key : string) : Z := hash128_bytes (bytes_of_string key) 0.

End Murmur3.

(** [repr] of a [str] made of ASCII characters: single quotes unless the
    string holds a single quote and no double quote; the quote character
    and the backslash escaped, tab, newline and carriage return by their
    letter, other control characters as [\xNN].  Bytes above 127 are left
    as they are, as [repr] leaves a printable non-ASCII character.  An
    instance for the [repr_str] parameter above. *)

Module AsciiRepr.

Definition squote : ascii := "'"%char.
Definition dquote : ascii := "034"%char.
Definition backslash : ascii := "092"%char.

Fixpoint mem_char (c : ascii) (s : string) : bool :=
  match s with
  | EmptyString => false
  | String x s' => Ascii.eqb x c || mem_char c s'
  end.

Definition escape_char (quote c : ascii) : string :=
  let n := Z.of_N (N_of_ascii c) in
  if Ascii.eqb c quote || Ascii.eqb c backslash
  then String backslash (String c EmptyString)
  else if n =? 9 then String backslash "t"
  else if n =? 10 then String backslash "n"
  else if n =? 13 then String backslash "r"
  else if (n <? 32) || (n =? 127)
  then String backslash
         (String "x" (String (PyInt.hexdigit (n / 16))
                        (String (PyInt.hexdigit (n mod 16)) EmptyString)))
  else String c EmptyString.

Fixpoint escape (quote : ascii) (s : string) : string :=
  match s with
  | EmptyString => EmptyString
  | String c s' => escape_char quote c ++ escape quote s'
  end.

Definition repr_str (s : string) : string :=
  let quote :=
    if mem_char squote s && negb (mem_char dquote s) then dquote else squote in
  String quote (escape quote s ++ String quote EmptyString).

End AsciiRepr.

(* ================================================================== *)
(** ** [fix_head_for_github] *)

Module GitHead.

(** What the function does to the outside: messages on standard error
    and [git] invocations, in order. *)
Inductive event : Type :=
| Echo (msg : string)
| GitCmd (argv : list string).

Definition is_checkout (e : event) : bool :=
  match e with
  | GitCmd (cmd :: _) => String.eqb cmd "checkout"
  | _ => false
  end.

(** [bool(s)] for an [Optional[str]] *)
Definition truthy (s : option string) : bool :=
  match s with
  | Some s => negb (String.eqb s EmptyString)
  | None => false
  end.

(** The environment of the function: [git_state] is the state of the
    repository and working copy; [git_exec] a [git] invocation, giving
    the decoded standard output or the [sh.ErrorReturnCode] it raises,
    and the state it leaves; [get_git_repo] is
    [semgrep_agent.utils.get_git_repo], the repository around the working
    directory if there is one; [rstrip] is [str.rstrip]. *)
Class Git : Type := {
  git_state : Type;
  git_exec : list string -> git_state -> result string * git_state;
  Repo : Type;
  get_git_repo : git_state -> option Repo;
  rstrip : string -> string
}.

Section FixHead.

Context {env : Git}.

Record world : Type := {
  state : git_state;
  trace : list event
}.

(** [w'] is [w] after more events. *)
Definition after (w w' : world) (evs : list event) : Prop :=
  trace w' = (trace w ++ evs)%list.

(** Computations that read and change the world and may raise. *)
Definition M (A : Type) : Type := world -> result A * world.

Definition ret {A : Type} (a : A) : M A := fun w => (Ok a, w).

Definition bind {A B : Type} (m : M A) (k : A -> M B) : M B :=
  fun w =>
    match m w with
    | (Ok a, w') => k a w'
    | (Err e, w') => (Err e, w')
    end.

Notation "x <- m ;; k" := (bind m (fun x => k))
  (at level 61, m at next level, right associativity).
Notation "m ;;; k" := (bind m (fun _ => k))
  (at level 61, right associativity).

(** [try: m finally: cleanup]: the cleanup runs whatever [m] did; what it
    raises replaces the outcome of [m]. *)
Definition try_finally {A : Type} (m : M A) (cleanup : M unit) : M A :=
  fun w =>
    let (r, w1) := m w in
    match cleanup w1 with
    | (Ok _, w2) => (r, w2)
    | (Err e, w2) => (Err e, w2)
    end.

(** [click.echo(msg, err=True)] *)
Definition echo (msg : string) : M unit :=
  fun w => (Ok tt, {| state := state w; trace := trace w ++ [Echo msg] |}).

(** [git(argv).stdout.decode("utf-8")] *)
Definition git (argv : list string) : M string :=
  fun w =>
    let (r, st) := git_exec argv (state w) in
    (r, {| state := st; trace := trace w ++ [GitCmd argv] |}).

(** [if base_ref: base_ref = git(["rev-parse", base_ref])...rstrip()] *)
Definition resolve_base_ref (base_ref : option string) : M (option string) :=
  match base_ref with
  | Some b =>
      if truthy base_ref
      then out <- git ["rev-parse"; b] ;; ret (Some (rstrip out))
      else ret base_ref
  | None => ret base_ref
  end.

(** The two assignments to [stashed_rev]: the name of the current
    branch, or the commit of [HEAD] when no branch is checked out. *)
Definition current_position : M string :=
  out <- git ["branch"; "--show-current"] ;;
  if String.eqb (rstrip out) EmptyString
  then out <- git ["rev-parse"; "HEAD"] ;; ret (rstrip out)
  else ret (rstrip out).

(** The [if head_ref:] block; returns [stashed_rev]. *)
Definition checkout_head (head_ref : option string) : M (option string) :=
  match head_ref with
  | Some h =>
      if truthy head_ref
      then
        stashed_rev <- current_position ;;
        echo ("| not on head ref " ++ h ++ "; checking that out now...") ;;;
        git ["checkout"; h] ;;;
        ret (Some stashed_rev)
      else ret None
  | None => ret None
  end.

(** The part of the [try] block before the [yield]. *)
Definition log_commits (base_ref : option string) : M unit :=
  match base_ref with
  | Some b =>
      echo "| scanning only the following commits:" ;;;
      log <- git ["log"; "--oneline"; "--graph"; b ++ "..HEAD"] ;;
      let rr := PyStr.split_lines (rstrip log) in
      let r := String.concat (String PyStr.newline "|   ") rr in
      echo ("|   " ++ r)
  | None => ret tt
  end.

(** The [finally] block. *)
Definition restore_head (stashed_rev : option string) : M unit :=
  match stashed_rev with
  | Some s =>
      echo ("| returning to original head revision " ++ s) ;;;
      git ["checkout"; s] ;;;
      ret tt
  | None => ret tt
  end.

(** Everything before the [try]. *)
Definition setup (base_commit_ref head_ref : option string)
  : M (option string * option string) :=
  base_ref <- resolve_base_ref base_commit_ref ;;
  stashed_rev <- checkout_head head_ref ;;
  ret (base_ref, stashed_rev).

(** [with fix_head_for_github(base_commit_ref, head_ref) as base_ref:
    body(base_ref)].  The generator yields once; the block of the [with]
    statement runs at the [yield], and what it raises is raised there. *)
Definition fix_head_for_github {A : Type}
    (base_commit_ref head_ref : option string)
    (body : option string -> M A) : M A :=
  fun w =>
    match get_git_repo (state w) with
    | None => body base_commit_ref w
    | Some _ =>
        (p <- setup base_commit_ref head_ref ;;
         try_finally
           (log_commits (fst p) ;;; body (fst p))
           (restore_head (snd p))) w
    end.

End FixHead.


(** A small repository: named branches, known commits, and the
    checked-out position.  An instance for the parameters above. *)
Module Simple.

Record repository : Type := {
  present : bool;
  branches : pydict string string;
  commits : list string;
  current_branch : option string;
  head_commit : string
}.

Definition nl : string := String PyStr.newline EmptyString.

Definition rev_parse (st : repository) (ref : string) : option string :=
  if String.eqb ref "HEAD" then Some (head_commit st)
  else match dict_get (branches st) ref with
       | Some c => Some c
       | None => if existsb (String.eqb ref) (commits st) then Some ref
                 else None
       end.

Definition checkout (st : repository) (ref : string) : option repository :=
  match dict_get (branches st) ref with
  | Some c =>
      Some {| present := present st; branches := branches st;
              commits := commits st; current_branch := Some ref;
              head_commit := c |}
  | None =>
      if existsb (String.eqb ref) (commits st)
      then Some {| present := present st; branches := branches st;
                   commits := commits st; current_branch := None;
                   head_commit := ref |}
      else None
  end.

Definition exec (argv : list string) (st : repository)
  : result string * repository :=
  match argv with
  | [cmd; arg] =>
      if String.eqb cmd "rev-parse" then
        match rev_parse st arg with
        | Some c => (Ok (c ++ nl), st)
        | None => (Err (ErrorReturnCode argv), st)
        end
      else if String.eqb cmd "branch" then
        (Ok (match current_branch st with
             | Some b => b ++ nl
             | None => EmptyString
             end), st)
      else if String.eqb cmd "checkout" then
        match checkout st arg with
        | Some st' => (Ok EmptyString, st')
        | None => (Err (ErrorReturnCode argv), st)
        end
      else (Err (ErrorReturnCode argv), st)
  | cmd :: _ =>
      if String.eqb cmd "log" then (Ok ("* " ++ head_commit st ++ nl), st)
      else (Err (ErrorReturnCode argv), st)
  | [] => (Err (ErrorReturnCode argv), st)
  end.

Definition get_repo (st : repository) : option unit :=
  if present st then Some tt else None.

Definition is_space (c : ascii) : bool :=
  let n := Z.of_N (N_of_ascii c) in
  (n =? 32) || ((9 <=? n) && (n <=? 13)) || ((28 <=? n) && (n <=? 31)).

(** [str.rstrip] on ASCII text. *)
Fixpoint ascii_rstrip (s : string) : string :=
  match s with
  | EmptyString => EmptyString
  | String c s' =>
      match ascii_rstrip s' with
      | EmptyString => if is_space c then EmptyString else String c EmptyString
      | r => String c r
      end
  end.

(** The position as the code reads it: the branch name, or the commit
    when no branch is checked out. *)
Definition position (st : repository) : string :=
  match current_branch st with
  | Some b => b
  | None => head_commit st
  end.

#[export] Instance simple : Git :=
  {| git_state := repository; git_exec := exec;
     Repo := unit; get_git_repo := get_repo; rstrip := ascii_rstrip |}.

(** The repository [st] with the events [evs] behind it. *)
Definition at_state (st : repository) (evs : list event) : world :=
  {| state := st; trace := evs |}.

Definition run {A : Type} (base_commit_ref head_ref : option string)
    (body : option string -> M A) (st : repository) : result A * world :=
  fix_head_for_github base_commit_ref head_ref body (at_state st []).

(** On branch [main] at commit [c2]; [feature] is at [c3]. *)
Definition on_main : repository :=
  {| present := true;
     branches := [("main", "c2"); ("feature", "c3")];
     commits := ["c1"; "c2"; "c3"];
     current_branch := Some "main";
     head_commit := "c2" |}.

(** A block that does nothing, and one that raises. *)
Definition body_pass : option string -> M unit :=
  fun _ => ret tt.

Definition body_raise : option string -> M unit :=
  fun _ w => (Err (Raised "scan failed"), w).

(** A block that leaves one message behind, to see where it ran. *)
Definition body_scan : option string -> M unit :=
  fun _ => echo "scanning".

End Simple.

End GitHead.

(* ================================================================== *)
(** ** More of [findings.py]: notions used to describe the sets *)

(** The findings [_map_to_set] puts into its set, before duplicates are
    merged: every member of every list, carrying its position. *)
Definition positional (mapping : pydict FindingKey (list Finding))
  : list Finding :=
  flat_map
    (fun findings_for_key =>
       map (fun p => evolve_index (snd p) (fst p))
           (enumerate findings_for_key))
    (dict_values mapping).

(** The three attributes [__eq__] looks at. *)
Definition eq_key (f : Finding) : string * string * string :=
  (check_id f, path f, syntactic_context f).

(** Inverses of [PyInt.hexdigit], [PyInt.hexlify] and [PyInt.digits_big]
    ([binascii.unhexlify], [int.from_bytes(..., "big")]), to read an
    identifier string back. *)
Module PyIntInv.

Definition hexvalue (c : ascii) : Z :=
  let n := Z.of_N (N_of_ascii c) in
  if (48 <=? n) && (n <=? 57) then n - 48 else n - 87.

Fixpoint unhexlify (s : string) : list Z :=
  match s with
  | String hi (String lo s') => (16 * hexvalue hi + hexvalue lo) :: unhexlify s'
  | _ => []
  end.

Definition from_bytes (bs : list Z) : Z :=
  fold_left (fun acc b => 256 * acc + b) bs 0.

Definition is_hexdigit (c : ascii) : bool :=
  let n := Z.of_N (N_of_ascii c) in
  ((48 <=? n) && (n <=? 57)) || ((97 <=? n) && (n <=? 102)).

Definition is_byte (b : Z) : Prop := 0 <= b < 256.

End PyIntInv.

(* ================================================================== *)
(** ** [semgrepdep.py]: lock files *)

Module Lockfiles.

(** [pathlib.Path] as far as the code looks at it: the final component
    [name]; and [str.lower]. *)
Class PathOps : Type := {
  Path : Type;
  name : Path -> string;
  lower : string -> string
}.

Definition TARGET_FILENAMES : list string :=
  ["pipfile.lock"; "yarn.lock"; "package-lock.json"].

(** The generator, as the list of what it yields. *)
Definition get_files_matching_name_insensitive_case {ops : PathOps}
    (paths : list Path) : list Path :=
  flat_map
    (fun target_file =>
       filter (fun path =>
                 String.eqb (lower (name path)) (lower target_file))
              paths)
    TARGET_FILENAMES.

(** Whether the name of [p] is one of the lock file names, case
    ignored. *)
Definition is_target {ops : PathOps} (p : Path) : bool :=
  existsb (fun target_file =>
             String.eqb (lower (name p)) (lower target_file))
          TARGET_FILENAMES.

(** What [requests.post(...)] followed by [output.json()] comes to: an
    exception other than a JSON decoding error (with its [str]), a JSON
    decoding error, or the decoded body. *)
Inductive response : Type :=
| Raises (msg : string)
| JSONDecodeError
| Json (body : pyval).

Definition of_optional_str (o : option string) : pyval :=
  match o with Some s => PStr s | None => PNone end.

(** [type(v).__name__] *)
Definition type_name (v : pyval) : string :=
  match v with
  | PNone => "NoneType"
  | PBool _ => "bool"
  | PInt _ => "int"
  | PFloat _ => "float"
  | PStr _ => "str"
  | PList _ => "list"
  | PDict _ => "dict"
  end.

Definition REMOTE_URL : string := "https://deps.semgrep.dev/semgrepdep".

(** The [json=] argument of the request. *)
Definition request_json (path : string) (a_text : option string)
    (b_text : string) (for_repo for_pr : option string)
  : pydict string pyval :=
  [("old", of_optional_str a_text);
   ("new", PStr b_text);
   ("old_path", PStr path);
   ("new_path", PStr path);
   ("for_repo", of_optional_str for_repo);
   ("for_pr", of_optional_str for_pr)].

Section Compare.

(** [requests.post(url, json=payload, timeout=600)] and the decoding of
    its body. *)
Variable requests_post : string -> pydict string pyval -> response.

(** Returns the messages written to standard error and the value
    returned; [None] stands for Python's [None], also when the service
    answers with a [null] comment. *)
Definition compare_lockfiles (path : string) (a_text : option string)
    (b_text : string) (for_repo for_pr : option string)
  : list string * option pyval :=
  let TARGET_URL := REMOTE_URL in
  let posting :=
    "posting lockfile comparison request to " ++ TARGET_URL ++ "..." in
  let went_wrong msg :=
    "something went wrong contacting " ++ REMOTE_URL ++ ": " ++ msg in
  match requests_post TARGET_URL
          (request_json path a_text b_text for_repo for_pr) with
  | Json (PDict res) =>
      match dict_get res "status" with
      | Some (PStr status) =>
          if String.eqb status "ok"
          then match dict_get res "comment" with
               | Some PNone => ([posting], None)
               | Some comment => ([posting], Some comment)
               | None => ([posting; went_wrong "'comment'"], None)
               end
          else ([posting; "remote service failed to analyze " ++ path],
                None)
      | _ => ([posting; "remote service failed to analyze " ++ path], None)
      end
  | Json v =>
      ([posting;
        went_wrong ("'" ++ type_name v
                    ++ "' object has no attribute 'get'")], None)
  | JSONDecodeError => ([posting; "bad response from " ++ REMOTE_URL], None)
  | Raises msg => ([posting; went_wrong msg], None)
  end.

(** [key in d] *)
Definition dict_mem {V : Type} (d : pydict string V) (k : string) : bool :=
  match dict_get d k with Some _ => true | None => false end.

(** The comprehension [{t: (old_targets_text[t], text) for t, text in
    new_targets_text.items() if t in old_targets_text}] of
    [invoke_semgrep]; paths are keyed by their text. *)
Definition changed_targets (old_targets_text new_targets_text
                            : pydict string string)
  : pydict string (string * string) :=
  flat_map
    (fun item =>
       match dict_get old_targets_text (fst item) with
       | Some old_text => [(fst item, (old_text, snd item))]
       | None => []
       end)
    new_targets_text.

(** [{t: text for t, text in new_targets_text.items()
      if t not in old_targets_text}] *)
Definition introduced_targets (old_targets_text new_targets_text
                               : pydict string string)
  : pydict string string :=
  filter (fun item => negb (dict_mem old_targets_text (fst item)))
         new_targets_text.

(** [res += compared + "\n"] when [compared is not None]; adding a
    newline to a value that is not a string raises. *)
Definition add_comment (res : string) (compared : option pyval)
  : result string :=
  match compared with
  | None => Ok res
  | Some (PStr comment) =>
      Ok (res ++ comment ++ String PyStr.newline EmptyString)
  | Some (PList _) =>
      Err (TypeError ("can only concatenate list (not "
                      ++ String AsciiRepr.dquote "str"
                      ++ String AsciiRepr.dquote ") to list"))
  | Some v => Err (TypeError ("unsupported operand type(s) for +: '"
                              ++ type_name v ++ "' and 'str'"))
  end.

(** The two loops of [invoke_semgrep] that build [res]. *)
Fixpoint compare_changed (for_repo for_pr : option string)
    (items : pydict string (string * string)) (res : string)
  : result string :=
  match items with
  | [] => Ok res
  | (path, (a, b)) :: items' =>
      match add_comment res
              (snd (compare_lockfiles path (Some a) b for_repo for_pr)) with
      | Ok res' => compare_changed for_repo for_pr items' res'
      | Err e => Err e
      end
  end.

Fixpoint compare_introduced (for_repo for_pr : option string)
    (items : pydict string string) (res : string) : result string :=
  match items with
  | [] => Ok res
  | (path, a) :: items' =>
      match add_comment res
              (snd (compare_lockfiles path None a for_repo for_pr)) with
      | Ok res' => compare_introduced for_repo for_pr items' res'
      | Err e => Err e
      end
  end.

(** [invoke_semgrep] from the two dictionaries of lock file texts on:
    the comparisons, then the file written when [res] is not empty and
    [GITHUB_ENV] is set, as (file name, text written).  The messages on
    standard error are left out. *)
Definition report_comparisons (old_targets_text new_targets_text
                               : pydict string string)
    (this_repo_name this_pr_id : option string)
    (GITHUB_ENV : option string) : result (option (string * string)) :=
  let changed := changed_targets old_targets_text new_targets_text in
  let introduced := introduced_targets old_targets_text new_targets_text in
  match compare_changed this_repo_name this_pr_id changed EmptyString with
  | Err e => Err e
  | Ok res =>
      match compare_introduced this_repo_name this_pr_id introduced res with
      | Err e => Err e
      | Ok res =>
          if negb (String.eqb res EmptyString)
          then match GITHUB_ENV with
               | Some output_file =>
                   Ok (Some (output_file,
                             "MARKDOWN_COMMENT<<EOF"
                               ++ String PyStr.newline EmptyString
                               ++ res
                               ++ String PyStr.newline "EOF"
                               ++ String PyStr.newline EmptyString))
               | None => Ok None
               end
          else Ok None
      end
  end.

End Compare.

End Lockfiles.

(* ================================================================== *)
(** ** [semgrep.py]: the ignore file *)

Module Semgrepignore.

(** [get_semgrepignore]: [dot_semgrepignore] is the text of the file
    [.semgrepignore] when there is one, [template] that of the packaged
    default.  Returns the messages written to standard error and the
    contents of the [StringIO]. *)
Definition get_semgrepignore (dot_semgrepignore : option string)
    (template : string) (ignore_patterns : list string)
  : list string * string :=
  let (messages, semgrepignore) :=
    match dot_semgrepignore with
    | Some text => (["| using path ignore rules from .semgrepignore"], text)
    | None =>
        (["| using default path ignore rules of common test and dependency directories"],
         template)
    end in
  match ignore_patterns with
  | [] => (messages, semgrepignore)
  | _ :: _ =>
      ((messages
        ++ ["| adding further path ignore rules configured on the web UI"])%list,
       semgrepignore
         ++ String PyStr.newline "# Ignores from semgrep app"
         ++ String PyStr.newline EmptyString
         ++ PyStr.join_lines ignore_patterns
         ++ String PyStr.newline EmptyString)
  end.

End Semgrepignore.

(* ================================================================== *)
(** ** [main.py] *)

Module Main.

Fixpoint spaces (n : nat) : string :=
  match n with
  | O => EmptyString
  | S n' => String PyStr.space (spaces n')
  end.

(** The number of characters of a text: the bytes of its UTF-8 encoding
    that do not continue a character. *)
Fixpoint len (s : string) : nat :=
  match s with
  | EmptyString => O
  | String c s' =>
      let n := Z.of_N (N_of_ascii c) in
      if (128 <=? n) && (n <? 192) then len s' else S (len s')
  end.

(** [s.ljust(width)] *)
Definition ljust (s : string) (width : nat) : string :=
  s ++ spaces (width - len s).

Definition get_aligned_command (title subtext : string) : string :=
  "| " ++ ljust title 17 ++ " - " ++ subtext.

End Main.

(* ================================================================== *)
(** ** [bento.py]: results of a scan *)

Module Bento.

Record RunningCommand : Type := {
  stdout : string;
  cmd_exit_code : Z
}.

Record Results : Type := {
  exit_code : Z;
  findings : option pyval;
  total_time : pyval
}.

(** [f["commit_date"] = commit_date] *)
Definition set_commit_date (commit_date : string) (f : pyval)
  : result pyval :=
  match f with
  | PDict d => Ok (PDict (dict_set d "commit_date" (PStr commit_date)))
  | PList _ =>
      Err (TypeError "list indices must be integers or slices, not str")
  | _ => Err (TypeError ("'" ++ Lockfiles.type_name f
                         ++ "' object does not support item assignment"))
  end.

Fixpoint set_commit_dates (commit_date : string) (fs : list pyval)
  : result (list pyval) :=
  match fs with
  | [] => Ok []
  | f :: fs' =>
      match set_commit_date commit_date f with
      | Err e => Err e
      | Ok f' =>
          match set_commit_dates commit_date fs' with
          | Err e => Err e
          | Ok fs'' => Ok (f' :: fs'')
          end
      end
  end.

(** [for f in findings: f["commit_date"] = commit_date], on whatever
    [json.loads] returned: a list is gone through; an empty object or
    string gives nothing to go through; the keys of an object and the
    characters of a string take no item assignment; anything else is not
    iterable. *)
Definition augment (commit_date : string) (findings : pyval)
  : result pyval :=
  match findings with
  | PList fs =>
      match set_commit_dates commit_date fs with
      | Ok fs' => Ok (PList fs')
      | Err e => Err e
      end
  | PDict [] => Ok findings
  | PStr EmptyString => Ok findings
  | PDict _ | PStr _ =>
      Err (TypeError "'str' object does not support item assignment")
  | _ => Err (TypeError ("'" ++ Lockfiles.type_name findings
                         ++ "' object is not iterable"))
  end.

(** [bool(v)] *)
Definition py_bool (v : pyval) : bool :=
  match v with
  | PNone => false
  | PBool b => b
  | PInt z => negb (z =? 0)
  | PFloat bits => negb ((bits =? 0) || (bits =? 2 ^ 63))
  | PStr s => negb (String.eqb s EmptyString)
  | PList l => match l with [] => false | _ => true end
  | PDict d => match d with [] => false | _ => true end
  end.

(** [len(v)] *)
Definition py_len (v : pyval) : result Z :=
  match v with
  | PStr s => Ok (Z.of_nat (Main.len s))
  | PList l => Ok (Z.of_nat (List.length l))
  | PDict d => Ok (Z.of_nat (List.length d))
  | _ => Err (TypeError ("object of type '" ++ Lockfiles.type_name v
                         ++ "' has no len()"))
  end.

Section FromCommand.

Context {rt : Runtime}.

(** [json.loads] on the decoded standard output. *)
Variable json_loads : string -> result pyval.

(** [Results.from_sh_command]; [commit] is [meta.commit], absent when
    there is no commit. *)
Definition from_sh_command (sh_command : RunningCommand)
    (commit : option datetime) (elapsed : pyval) : result Results :=
  match commit with
  | None =>
      Err (AttributeError "committed_datetime")
  | Some committed_datetime =>
      let commit_date := isoformat committed_datetime in
      let findings :=
        if negb (String.eqb (stdout sh_command) EmptyString)
        then match json_loads (stdout sh_command) with
             | Err e => Err e
             | Ok findings =>
                 match augment commit_date findings with
                 | Ok findings' => Ok (Some findings')
                 | Err e => Err e
                 end
             end
        else Ok None in
      match findings with
      | Err e => Err e
      | Ok findings =>
          Ok {| exit_code := cmd_exit_code sh_command;
                findings := findings;
                total_time := elapsed |}
      end
  end.

End FromCommand.

(** The property [stats]: the number of findings, or [None], and the
    time. *)
Definition stats (self : Results) : result (pydict string pyval) :=
  let count :=
    match findings self with
    | Some fs =>
        if py_bool fs
        then match py_len fs with
             | Ok n => Ok (PInt n)
             | Err e => Err e
             end
        else Ok PNone
    | None => Ok PNone
    end in
  match count with
  | Ok n => Ok [("findings", n); ("total_time", total_time self)]
  | Err e => Err e
  end.

End Bento.

(* ================================================================== *)
(** ** Auxiliary notions and sample data *)

(** The raw record [result] with another matched text, every other field
    kept. *)
Definition with_lines (result : SemgrepResult) (text : string)
  : SemgrepResult :=
  {| result_check_id := result_check_id result;
     result_path := result_path result;
     start := start result;
     end_ := end_ result;
     extra := {| lines := text;
                 extra_message := extra_message (extra result);
                 extra_severity := extra_severity (extra result);
                 extra_metadata := extra_metadata (extra result) |} |}.

(** The hashes [new] are pairwise distinct and none of them occurs among
    [old]. *)
Fixpoint separated (old new : list Z) : bool :=
  match new with
  | [] => true
  | h :: new' =>
      negb (existsb (Z.eqb h) old) && negb (existsb (Z.eqb h) new')
      && separated old new'
  end.

(** The value under the action key, when it is absent or a list. *)
Definition actions_listed (md : pydict string pyval)
  : option (list pyval) :=
  match dict_get md "dev.semgrep.actions" with
  | None => Some [PStr "block"]
  | Some (PList l) => Some l
  | Some _ => None
  end.

(** The metadata names dispositions under the action key and "block" is
    not one of them. *)
Definition lists_non_blocking (md : pydict string pyval) : Prop :=
  exists l, dict_get md "dev.semgrep.actions" = Some (PList l)
            /\ ~ In (PStr "block") l.

Module Sample.

(** [datetime.isoformat] on a naive value with no microseconds and a
    four-digit year: date and time of day. *)
Definition pad2 (n : Z) : string :=
  (if n <? 10 then "0" else EmptyString) ++ PyStr.repr_int n.

Definition iso_seconds (d : datetime) : string :=
  PyStr.repr_int (year d) ++ "-" ++ pad2 (month d) ++ "-" ++ pad2 (day d)
    ++ "T" ++ pad2 (hour d) ++ ":" ++ pad2 (minute d) ++ ":"
    ++ pad2 (second d).

#[export] Instance runtime : Runtime :=
  {| hash128 := Murmur3.hash128;
     repr_str := AsciiRepr.repr_str;
     isoformat := iso_seconds |}.

(** A hash that tells nothing apart. *)
Definition colliding : Runtime :=
  {| hash128 := fun _ => 0;
     repr_str := AsciiRepr.repr_str;
     isoformat := iso_seconds |}.

Definition nl : string := String PyStr.newline EmptyString.

Definition a_date : datetime :=
  {| year := 2020; month := 9; day := 14; hour := 18; minute := 3;
     second := 27; microsecond := 0; utcoffset := None |}.

(** A finding on an indented call, scanned with and without a commit. *)
Definition finding_A : Finding :=
  Finding_init "python.lang.security.eval" "app/views.py" 12 9
    "avoid eval" 2 0 "        eval(request.body)" (Some 12) (Some 27)
    (Some a_date) [("dev.semgrep.actions", PList [PStr "block"])].

(** The same occurrence after the file was edited above it and the rule
    reworded. *)
Definition finding_A_moved : Finding :=
  Finding_init "python.lang.security.eval" "app/views.py" 40 5
    "do not call eval on request data" 1 0 "    eval(request.body)"
    (Some 40) (Some 23) None [].

Definition finding_no_date : Finding :=
  Finding_init "python.lang.security.eval" "app/views.py" 12 9
    "avoid eval" 2 0 "        eval(request.body)" (Some 12) (Some 27)
    None [("dev.semgrep.actions", PList [PStr "block"])].

Definition finding_monitor : Finding :=
  Finding_init "python.lang.best-practice.print" "app/views.py" 3 1
    "stray print" 1 0 "print(x)" None None None
    [("category", PStr "style");
     ("dev.semgrep.actions", PList [PStr "monitor"])].

Definition key_A : FindingKey :=
  {| key_check_id := "python.lang.security.eval";
     key_path := "app/views.py";
     key_syntactic_context := "        eval(request.body)" |}.

Definition a_result : SemgrepResult :=
  {| result_check_id := "python.lang.security.eval";
     result_path := "app/views.py";
     start := {| pos_line := 12; pos_col := 5 |};
     end_ := {| pos_line := 13; pos_col := 14 |};
     extra := {| lines := "    if x:" ++ nl ++ nl ++ "        eval(x)";
                 extra_message := "avoid eval";
                 extra_severity := "ERROR";
                 extra_metadata := [] |} |}.

(** The same two lines moved four columns to the right, the blank line
    between them left empty. *)
Definition shifted_lines : string :=
  "        if x:" ++ nl ++ nl ++ "            eval(x)".

End Sample.

(* ================================================================== *)
(** ** More sample data *)

Module Fixtures.

(** [str.lower] on ASCII text. *)
Definition lower_char (c : ascii) : ascii :=
  let n := N_of_ascii c in
  if ((65 <=? n) && (n <=? 90))%N then ascii_of_N (n + 32) else c.

Fixpoint ascii_lower (s : string) : string :=
  match s with
  | EmptyString => EmptyString
  | String c s' => String (lower_char c) (ascii_lower s')
  end.

(** The final component of a relative POSIX path without trailing
    slash. *)
Fixpoint basename (s : string) : string :=
  match s with
  | EmptyString => EmptyString
  | String c s' =>
      if AsciiRepr.mem_char "/"%char s' then basename s'
      else if Ascii.eqb c "/"%char then s' else s
  end.

#[export] Instance posix : Lockfiles.PathOps :=
  {| Lockfiles.Path := string;
     Lockfiles.name := basename;
     Lockfiles.lower := ascii_lower |}.

Definition some_paths : list string :=
  ["web/yarn.lock"; "README.md"; "Pipfile.lock"; "web/package.json";
   "api/PIPFILE.LOCK"; "web/package-lock.json"].

(** A service that is down, and one that answers every request with
    the same comment. *)
Definition post_down : string -> pydict string pyval -> Lockfiles.response :=
  fun _ _ => Lockfiles.Raises "connection refused".

Definition post_ok : string -> pydict string pyval -> Lockfiles.response :=
  fun _ _ =>
    Lockfiles.Json (PDict [("status", PStr "ok");
                           ("comment", PStr "1 dependency added")]).

Definition finding_unblock : Finding :=
  Finding_init "python.lang.best-practice.print" "app/views.py" 3 1
    "stray print" 1 0 "print(x)" None None None
    [("dev.semgrep.actions", PStr "unblock")].

(** Rules whose action entry is not a list: a text, and nothing at
    all. *)
Definition finding_monitor_text : Finding :=
  Finding_init "python.lang.best-practice.print" "app/views.py" 3 1
    "stray print" 1 0 "print(x)" None None None
    [("dev.semgrep.actions", PStr "monitor")].

Definition finding_null_action : Finding :=
  Finding_init "python.lang.best-practice.print" "app/views.py" 3 1
    "stray print" 1 0 "print(x)" None None None
    [("dev.semgrep.actions", PNone)].

(** A scan that printed two findings. *)
Definition a_command : Bento.RunningCommand :=
  {| Bento.stdout := "[{...}, {...}]"; Bento.cmd_exit_code := 2 |}.

Definition json_two : string -> result pyval :=
  fun _ => Ok (PList [PDict [("check_id", PStr "eval")];
                      PDict [("commit_date", PNone);
                             ("check_id", PStr "exec")]]).

Definition results_of (r : result Bento.Results) : Bento.Results :=
  match r with
  | Ok r => r
  | Err _ => {| Bento.exit_code := 0; Bento.findings := None;
                Bento.total_time := PNone |}
  end.

Definition dict_of (r : result (pydict string attr_value))
  : pydict string attr_value :=
  match r with Ok d => d | Err _ => [] end.

End Fixtures.

(* ================================================================== *)
(** * Properties *)

(** ** Strings and lines *)

Module PyStrFacts.
Import PyStr.

Lemma prefix_cons (a b : ascii) (s t : string) :
  String.prefix (String a s) (String b t)
  = Ascii.eqb a b && String.prefix s t.
Proof.
  simpl. destruct (ascii_dec a b) as [->|Hne].
  - now rewrite Ascii.eqb_refl.
  - apply Ascii.eqb_neq in Hne. now rewrite Hne.
Qed.

Lemma prefix_nil_r (s : string) :
  String.prefix s EmptyString = String.eqb s EmptyString.
Proof. now destruct s. Qed.

Lemma prefix_nil_l (s : string) : String.prefix EmptyString s = true.
Proof. now destruct s. Qed.

Lemma prefix_refl (s : string) : String.prefix s s = true.
Proof.
  induction s as [|c s IH]; [reflexivity|].
  now rewrite prefix_cons, Ascii.eqb_refl.
Qed.

Lemma prefix_app (w a b : string) :
  String.prefix (w ++ a) (w ++ b) = String.prefix a b.
Proof.
  induction w as [|c w IH]; [reflexivity|].
  change (String.prefix (String c (w ++ a)) (String c (w ++ b))
          = String.prefix a b).
  now rewrite prefix_cons, Ascii.eqb_refl.
Qed.

Lemma prefix_trans (a b c : string) :
  String.prefix a b = true -> String.prefix b c = true ->
  String.prefix a c = true.
Proof.
  revert b c; induction a as [|x a IH]; intros b c Hab Hbc;
    [apply prefix_nil_l|].
  destruct b as [|y b]; [discriminate|].
  destruct c as [|z c]; [discriminate|].
  rewrite prefix_cons in *.
  apply andb_true_iff in Hab as [Hxy Hab].
  apply andb_true_iff in Hbc as [Hyz Hbc].
  apply Ascii.eqb_eq in Hxy, Hyz; subst.
  rewrite Ascii.eqb_refl; simpl. eauto.
Qed.

Lemma common_prefix_app (w a b : string) :
  common_prefix (w ++ a) (w ++ b) = w ++ common_prefix a b.
Proof.
  induction w as [|c w IH]; [reflexivity|].
  simpl. now rewrite Ascii.eqb_refl, IH.
Qed.

Lemma common_prefix_l (a b : string) :
  String.prefix (common_prefix a b) a = true.
Proof.
  revert b; induction a as [|x a IH]; intros [|y b]; try reflexivity.
  simpl common_prefix. destruct (Ascii.eqb x y); [|reflexivity].
  now rewrite prefix_cons, Ascii.eqb_refl, IH.
Qed.

Lemma common_prefix_r (a b : string) :
  String.prefix (common_prefix a b) b = true.
Proof.
  revert b; induction a as [|x a IH]; intros [|y b]; try reflexivity.
  simpl common_prefix. destruct (Ascii.eqb x y) eqn:E; [|reflexivity].
  now rewrite prefix_cons, E, IH.
Qed.

Lemma drop_app (w l : string) : drop (String.length w) (w ++ l) = l.
Proof. induction w as [|c w IH]; [reflexivity | exact IH]. Qed.

Lemma length_app (a b : string) :
  String.length (a ++ b) = (String.length a + String.length b)%nat.
Proof. induction a as [|c a IH]; simpl; [reflexivity | now rewrite IH]. Qed.

Lemma app_assoc (a b c : string) : (a ++ b) ++ c = a ++ (b ++ c).
Proof. induction a as [|x a IH]; simpl; [reflexivity | now rewrite IH]. Qed.

Lemma all_chars_app (p : ascii -> bool) (a b : string) :
  all_chars p (a ++ b) = all_chars p a && all_chars p b.
Proof.
  induction a as [|c a IH]; [reflexivity|].
  simpl. now rewrite IH, andb_assoc.
Qed.

Lemma all_chars_impl (p q : ascii -> bool) (s : string) :
  (forall c, p c = true -> q c = true) ->
  all_chars p s = true -> all_chars q s = true.
Proof.
  intros Hpq; induction s as [|c s IH]; [reflexivity|].
  simpl; intros H. apply andb_true_iff in H as [Hc Hs].
  now rewrite (Hpq _ Hc), IH.
Qed.

Lemma all_chars_drop (p : ascii -> bool) (n : nat) (s : string) :
  all_chars p s = true -> all_chars p (drop n s) = true.
Proof.
  revert s; induction n as [|n IH]; intros [|c s] H; try assumption.
  simpl in *. apply andb_true_iff in H as [_ H]. now apply IH.
Qed.

Lemma indent_no_newline (w : string) :
  all_chars is_indent_char w = true -> no_newline w = true.
Proof.
  apply all_chars_impl. intros c Hc.
  destruct (Ascii.eqb c newline) eqn:E; [|reflexivity].
  apply Ascii.eqb_eq in E; subst. discriminate.
Qed.

Lemma split_lines_not_nil (s : string) : split_lines s <> [].
Proof.
  destruct s as [|c s]; simpl; [discriminate|].
  destruct (Ascii.eqb c newline); [discriminate|].
  destruct (split_lines s); discriminate.
Qed.

Lemma split_lines_no_newline (s : string) :
  Forall (fun l => no_newline l = true) (split_lines s).
Proof.
  induction s as [|c s IH]; simpl.
  - now constructor.
  - destruct (Ascii.eqb c newline) eqn:E.
    + now constructor.
    + destruct (split_lines s) as [|l ls]; constructor.
      * unfold no_newline; simpl. now rewrite E.
      * constructor.
      * inversion IH; subst. unfold no_newline in *; simpl. now rewrite E.
      * now inversion IH.
Qed.

Lemma split_lines_line (l : string) :
  no_newline l = true -> split_lines l = [l].
Proof.
  induction l as [|c l IH]; [reflexivity|].
  unfold no_newline; simpl; intros H.
  apply andb_true_iff in H as [Hc Hl].
  apply negb_true_iff in Hc. rewrite Hc, (IH Hl). reflexivity.
Qed.

Lemma split_lines_app (l rest : string) :
  no_newline l = true ->
  split_lines (l ++ String newline rest) = l :: split_lines rest.
Proof.
  induction l as [|c l IH]; intros H.
  - reflexivity.
  - unfold no_newline in H; simpl in H.
    apply andb_true_iff in H as [Hc Hl].
    apply negb_true_iff in Hc.
    change (split_lines (String c (l ++ String newline rest))
            = String c l :: split_lines rest).
    simpl. now rewrite Hc, (IH Hl).
Qed.

(** Splitting what was joined gives the lines back. *)
Lemma split_join (ls : list string) :
  ls <> [] -> Forall (fun l => no_newline l = true) ls ->
  split_lines (join_lines ls) = ls.
Proof.
  induction ls as [|l ls IH]; intros Hne Hall; [congruence|].
  inversion Hall as [|? ? Hl Hls]; subst.
  destruct ls as [|l' ls].
  - simpl. now apply split_lines_line.
  - change (join_lines (l :: l' :: ls))
      with (l ++ String newline (join_lines (l' :: ls))).
    rewrite split_lines_app by assumption.
    f_equal. apply IH; [discriminate | assumption].
Qed.

(** Joining what was split gives the text back. *)
Lemma join_split (s : string) : join_lines (split_lines s) = s.
Proof.
  induction s as [|c s IH]; [reflexivity|].
  simpl. destruct (Ascii.eqb c newline) eqn:E.
  - apply Ascii.eqb_eq in E; subst c.
    pose proof (split_lines_not_nil s) as Hne.
    destruct (split_lines s) as [|l ls]; [congruence|].
    change (join_lines (EmptyString :: l :: ls))
      with (String newline (join_lines (l :: ls))).
    now rewrite IH.
  - pose proof (split_lines_not_nil s) as Hne.
    destruct (split_lines s) as [|l ls]; [congruence|].
    rewrite <- IH. destruct ls; reflexivity.
Qed.

End PyStrFacts.

(** ** [textwrap.dedent] *)

Module TextwrapFacts.
Import PyStr Textwrap PyStrFacts.

Lemma remove_margin_nil (l : string) : remove_margin EmptyString l = l.
Proof. unfold remove_margin. now rewrite prefix_nil_l. Qed.

(** [dedent] in one shape: the margin, possibly empty, taken off every
    line. *)
Lemma dedent_lines (text : string) :
  let lines := map strip_whitespace_only (split_lines text) in
  dedent text = join_lines (map (remove_margin (margin_of lines)) lines).
Proof.
  intros lines. unfold dedent, margin_of. fold lines.
  destruct (find_margin _) as [m|].
  - destruct (String.eqb m EmptyString) eqn:E; simpl; [|reflexivity].
    apply String.eqb_eq in E; subst m.
    f_equal. rewrite <- (map_id lines) at 1.
    apply map_ext. intros l. now rewrite remove_margin_nil.
  - f_equal. rewrite <- (map_id lines) at 1.
    apply map_ext. intros l. now rewrite remove_margin_nil.
Qed.

Lemma strip_clean (l : string) : clean (strip_whitespace_only l).
Proof.
  unfold clean, strip_whitespace_only, has_content.
  destruct (all_chars is_indent_char l) eqn:E; [now left | right].
  now rewrite E.
Qed.

Lemma has_content_nil : has_content EmptyString = false.
Proof. reflexivity. Qed.

Lemma has_content_app (w l : string) :
  all_chars is_indent_char w = true ->
  has_content (w ++ l) = has_content l.
Proof.
  intros Hw. unfold has_content. now rewrite all_chars_app, Hw.
Qed.

Lemma strip_blank (l : string) :
  has_content l = false -> strip_whitespace_only l = EmptyString.
Proof.
  unfold has_content, strip_whitespace_only. intros H.
  apply negb_false_iff in H. now rewrite H.
Qed.

Lemma strip_content (l : string) :
  has_content l = true -> strip_whitespace_only l = l.
Proof.
  unfold has_content, strip_whitespace_only. intros H.
  apply negb_true_iff in H. now rewrite H.
Qed.

Lemma content_not_nil (l : string) :
  has_content l = true -> String.eqb l EmptyString = false.
Proof. now destruct l. Qed.

Lemma strip_app (w l : string) :
  all_chars is_indent_char w = true ->
  strip_whitespace_only (w ++ l) = reindent w (strip_whitespace_only l).
Proof.
  intros Hw. unfold reindent.
  destruct (has_content l) eqn:E.
  - rewrite (strip_content l E), (content_not_nil l E).
    apply strip_content. now rewrite has_content_app.
  - rewrite (strip_blank l E). simpl.
    apply strip_blank. now rewrite has_content_app.
Qed.

Lemma reindent_clean (w l : string) :
  all_chars is_indent_char w = true -> clean l -> clean (reindent w l).
Proof.
  intros Hw [->|Hl]; [now left|].
  unfold reindent. rewrite (content_not_nil l Hl).
  right. now rewrite has_content_app.
Qed.

Lemma filter_reindent (w : string) (ls : list string) :
  all_chars is_indent_char w = true ->
  Forall clean ls ->
  filter has_content (map (reindent w) ls)
  = map (String.append w) (filter has_content ls).
Proof.
  intros Hw Hls. induction Hls as [|l ls Hl _ IH]; [reflexivity|].
  simpl. destruct Hl as [->|Hl].
  - simpl. exact IH.
  - unfold reindent at 1. rewrite (content_not_nil l Hl).
    rewrite has_content_app, Hl by assumption. simpl.
    unfold reindent at 1. rewrite (content_not_nil l Hl). now f_equal.
Qed.

Lemma leading_whitespace_app (w l : string) :
  all_chars is_indent_char w = true ->
  leading_whitespace (w ++ l) = w ++ leading_whitespace l.
Proof.
  induction w as [|c w IH]; intros Hw; [reflexivity|].
  simpl in *. apply andb_true_iff in Hw as [Hc Hw].
  now rewrite Hc, IH.
Qed.

Lemma leading_whitespace_prefix (l : string) :
  String.prefix (leading_whitespace l) l = true.
Proof.
  induction l as [|c l IH]; [reflexivity|].
  cbn [leading_whitespace]. destruct (is_indent_char c); [|reflexivity].
  now rewrite prefix_cons, Ascii.eqb_refl.
Qed.

Lemma leading_whitespace_indent (l : string) :
  all_chars is_indent_char (leading_whitespace l) = true.
Proof.
  induction l as [|c l IH]; [reflexivity|].
  simpl. destruct (is_indent_char c) eqn:E; [|reflexivity].
  simpl. now rewrite E.
Qed.

Lemma prefix_all_chars (p : ascii -> bool) (a b : string) :
  String.prefix a b = true -> all_chars p b = true -> all_chars p a = true.
Proof.
  revert b; induction a as [|x a IH]; intros [|y b] Hp Hb;
    try reflexivity; try discriminate.
  rewrite prefix_cons in Hp. apply andb_true_iff in Hp as [Hxy Hp].
  apply Ascii.eqb_eq in Hxy; subst y.
  simpl in *. apply andb_true_iff in Hb as [Hx Hb].
  rewrite Hx. simpl. eauto.
Qed.

Lemma prefix_split (a b : string) :
  String.prefix a b = true -> b = a ++ drop (String.length a) b.
Proof.
  revert b; induction a as [|x a IH]; intros b Hp; [reflexivity|].
  destruct b as [|y b]; [discriminate|].
  rewrite prefix_cons in Hp. apply andb_true_iff in Hp as [Hxy Hp].
  apply Ascii.eqb_eq in Hxy; subst y.
  simpl. f_equal. now apply IH.
Qed.

(** *** The margin *)

Lemma margin_step_app (w m i : string) :
  margin_step (Some (w ++ m)) (w ++ i)
  = option_map (String.append w) (margin_step (Some m) i).
Proof.
  unfold margin_step. rewrite !prefix_app.
  destruct (String.prefix m i); [reflexivity|].
  destruct (String.prefix i m); [reflexivity|].
  simpl. now rewrite common_prefix_app.
Qed.

Lemma fold_margin_some (is_ : list string) (m : string) :
  exists m', fold_left margin_step is_ (Some m) = Some m'.
Proof.
  revert m; induction is_ as [|i is_ IH]; intros m; [now exists m|].
  simpl. destruct (String.prefix m i); [apply IH|].
  destruct (String.prefix i m); apply IH.
Qed.

Lemma fold_margin_app (w : string) (is_ : list string) (m : string) :
  fold_left margin_step (map (String.append w) is_) (Some (w ++ m))
  = option_map (String.append w) (fold_left margin_step is_ (Some m)).
Proof.
  revert m; induction is_ as [|i is_ IH]; intros m; [reflexivity|].
  cbn [map fold_left]. rewrite margin_step_app.
  destruct (margin_step (Some m) i) as [m'|] eqn:E.
  - simpl. apply IH.
  - unfold margin_step in E.
    destruct (String.prefix m i); [discriminate|].
    destruct (String.prefix i m); discriminate.
Qed.

Lemma find_margin_app (w : string) (is_ : list string) :
  find_margin (map (String.append w) is_)
  = option_map (String.append w) (find_margin is_).
Proof.
  unfold find_margin. destruct is_ as [|i is_]; [reflexivity|].
  cbn [map fold_left margin_step]. apply fold_margin_app.
Qed.

Lemma find_margin_none (is_ : list string) :
  find_margin is_ = None -> is_ = [].
Proof.
  destruct is_ as [|i is_]; [reflexivity|].
  unfold find_margin; simpl. intros H.
  destruct (fold_margin_some is_ i) as [m Hm]. congruence.
Qed.

Lemma margin_step_prefix (m i m' : string) :
  margin_step (Some m) i = Some m' ->
  String.prefix m' m = true /\ String.prefix m' i = true.
Proof.
  unfold margin_step.
  destruct (String.prefix m i) eqn:E1.
  - intros [= <-]. split; [apply prefix_refl | assumption].
  - destruct (String.prefix i m) eqn:E2.
    + intros [= <-]. split; [assumption | apply prefix_refl].
    + intros [= <-]. split; [apply common_prefix_l | apply common_prefix_r].
Qed.

Lemma fold_margin_prefix (is_ : list string) (m r : string) :
  fold_left margin_step is_ (Some m) = Some r ->
  String.prefix r m = true
  /\ Forall (fun i => String.prefix r i = true) is_.
Proof.
  revert m; induction is_ as [|i is_ IH]; intros m H.
  - injection H as <-. split; [apply prefix_refl | constructor].
  - cbn [fold_left] in H.
    destruct (margin_step (Some m) i) as [m'|] eqn:E.
    + destruct (margin_step_prefix _ _ _ E) as [Hm Hi].
      destruct (IH _ H) as [Hr Hall].
      split; [eapply prefix_trans; eassumption|].
      constructor; [eapply prefix_trans; eassumption | assumption].
    + unfold margin_step in E.
      destruct (String.prefix m i); [discriminate|].
      destruct (String.prefix i m); discriminate.
Qed.

(** The margin found is a prefix of every indentation it was computed
    from. *)
Lemma find_margin_prefix (is_ : list string) (r : string) :
  find_margin is_ = Some r ->
  Forall (fun i => String.prefix r i = true) is_.
Proof.
  destruct is_ as [|i is_]; [constructor|].
  unfold find_margin; cbn [fold_left margin_step]. intros H.
  destruct (fold_margin_prefix _ _ _ H) as [Hi Hall]. now constructor.
Qed.

(** *** Dedenting forgets a uniform margin *)

Lemma remove_margin_empty (m : string) :
  remove_margin m EmptyString = EmptyString.
Proof.
  unfold remove_margin. destruct (String.prefix m EmptyString);
    [now destruct (String.length m) | reflexivity].
Qed.

Lemma drop_app_both (w m x : string) :
  drop (String.length (w ++ m)) (w ++ x) = drop (String.length m) x.
Proof. induction w as [|c w IH]; [reflexivity | exact IH]. Qed.

Lemma clean_blank (l : string) :
  clean l -> has_content l = false -> l = EmptyString.
Proof. intros [->|H] H'; [reflexivity | congruence]. Qed.

Lemma margin_of_reindent (w : string) (ls : list string) :
  all_chars is_indent_char w = true ->
  Forall clean ls ->
  find_margin
    (map leading_whitespace (filter has_content (map (reindent w) ls)))
  = option_map (String.append w)
      (find_margin (map leading_whitespace (filter has_content ls))).
Proof.
  intros Hw Hls. rewrite filter_reindent by assumption.
  rewrite map_map.
  rewrite (map_ext _ (fun l => w ++ leading_whitespace l))
    by (intros l; now apply leading_whitespace_app).
  rewrite <- (map_map leading_whitespace (String.append w)).
  apply find_margin_app.
Qed.

(** Every line with content starts with the margin. *)
Lemma margin_of_prefix (ls : list string) (x : string) :
  In x ls -> has_content x = true ->
  String.prefix (margin_of ls) x = true.
Proof.
  intros Hin Hx. unfold margin_of.
  destruct (find_margin _) as [m|] eqn:E; [|apply prefix_nil_l].
  apply find_margin_prefix in E. rewrite Forall_forall in E.
  apply prefix_trans with (leading_whitespace x);
    [|apply leading_whitespace_prefix].
  apply E, in_map, filter_In. now split.
Qed.

Lemma margin_of_indent (ls : list string) :
  all_chars is_indent_char (margin_of ls) = true.
Proof.
  unfold margin_of.
  destruct (find_margin _) as [m|] eqn:E; [|reflexivity].
  destruct (filter has_content ls) as [|x xs]; [discriminate|].
  apply find_margin_prefix in E. inversion E as [|? ? Hx _]; subst.
  eapply prefix_all_chars; [exact Hx | apply leading_whitespace_indent].
Qed.

(** The lines of a re-indented text lose the wider margin and come out
    as the lines of the original do. *)
Lemma remove_margin_reindent (w : string) (ls : list string) :
  all_chars is_indent_char w = true ->
  Forall clean ls ->
  map (remove_margin (margin_of (map (reindent w) ls))) (map (reindent w) ls)
  = map (remove_margin (margin_of ls)) ls.
Proof.
  intros Hw Hls. rewrite map_map. apply map_ext_in. intros x Hin.
  assert (Hx : clean x) by (rewrite Forall_forall in Hls; auto).
  pose proof (margin_of_prefix ls x Hin) as Hpre.
  unfold margin_of in *. rewrite margin_of_reindent by assumption.
  destruct Hx as [->|Hx].
  - cbn [reindent String.eqb]. now rewrite !remove_margin_empty.
  - specialize (Hpre Hx).
    unfold reindent. rewrite (content_not_nil x Hx).
    destruct (find_margin _) as [m|] eqn:E; cbn [option_map].
    + unfold remove_margin. rewrite prefix_app, Hpre.
      apply drop_app_both.
    + apply find_margin_none in E.
      apply map_eq_nil in E.
      assert (Hin' : In x (filter has_content ls))
        by (apply filter_In; now split).
      rewrite E in Hin'. destruct Hin'.
Qed.

Lemma strip_lines_clean (text : string) :
  Forall clean (map strip_whitespace_only (split_lines text)).
Proof.
  apply Forall_forall. intros l Hin.
  apply in_map_iff in Hin as [l0 [<- _]]. apply strip_clean.
Qed.

Lemma strip_indented (w text text' : string) :
  all_chars is_indent_char w = true ->
  indented_by w text text' ->
  map strip_whitespace_only (split_lines text')
  = map (reindent w) (map strip_whitespace_only (split_lines text)).
Proof.
  intros Hw H. unfold indented_by in H.
  induction H as [|l l' ls ls' Hl _ IH]; [reflexivity|].
  cbn [map]. rewrite IH. f_equal.
  destruct Hl as [->|[Hl Hl']].
  - now apply strip_app.
  - now rewrite (strip_blank l Hl), (strip_blank l' Hl').
Qed.

(** Two texts that differ by a uniform margin dedent to the same text. *)
Lemma dedent_indented (w text text' : string) :
  all_chars is_indent_char w = true ->
  indented_by w text text' ->
  dedent text' = dedent text.
Proof.
  intros Hw H. rewrite !dedent_lines.
  rewrite (strip_indented w text text') by assumption.
  f_equal. apply remove_margin_reindent; [assumption|].
  apply strip_lines_clean.
Qed.

Lemma indent_all_indented (w text : string) :
  all_chars is_indent_char w = true ->
  indented_by w text (indent_all w text).
Proof.
  intros Hw. unfold indented_by, indent_all.
  rewrite split_join.
  - induction (split_lines text) as [|l ls IH]; constructor; auto.
  - pose proof (split_lines_not_nil text).
    destruct (split_lines text); [congruence | discriminate].
  - apply Forall_forall. intros l Hin.
    apply in_map_iff in Hin as [l0 [<- Hin]].
    pose proof (split_lines_no_newline text) as Hall.
    rewrite Forall_forall in Hall.
    unfold no_newline. rewrite all_chars_app.
    apply andb_true_iff; split;
      [now apply indent_no_newline | now apply Hall].
Qed.

Lemma dedent_indent_all (w text : string) :
  all_chars is_indent_char w = true ->
  dedent (indent_all w text) = dedent text.
Proof.
  intros Hw. apply dedent_indented with w; [assumption|].
  now apply indent_all_indented.
Qed.

(** *** Dedenting twice *)

Lemma remove_margin_inv (m x : string) :
  all_chars is_indent_char m = true ->
  clean x ->
  (has_content x = true -> String.prefix m x = true) ->
  clean (remove_margin m x) /\ reindent m (remove_margin m x) = x.
Proof.
  intros Hm [->|Hx] Hpre.
  - rewrite remove_margin_empty. split; [now left | reflexivity].
  - specialize (Hpre Hx). unfold remove_margin. rewrite Hpre.
    pose proof (prefix_split m x Hpre) as Hsplit.
    assert (Hc : has_content (drop (String.length m) x) = true).
    { rewrite <- (has_content_app m) by assumption. now rewrite <- Hsplit. }
    split; [now right|].
    unfold reindent. rewrite (content_not_nil _ Hc). now symmetry.
Qed.

Lemma strip_no_newline (l : string) :
  no_newline l = true -> no_newline (strip_whitespace_only l) = true.
Proof.
  unfold strip_whitespace_only.
  now destruct (all_chars is_indent_char l).
Qed.

Lemma remove_margin_no_newline (m l : string) :
  no_newline l = true -> no_newline (remove_margin m l) = true.
Proof.
  unfold remove_margin. intros H.
  destruct (String.prefix m l); [|assumption].
  now apply all_chars_drop.
Qed.

Lemma strip_of_clean (l : string) : clean l -> strip_whitespace_only l = l.
Proof. intros [->|H]; [reflexivity | now apply strip_content]. Qed.

(** [dedent] is idempotent: running the converter again, as
    [attr.evolve] does, leaves a stored text as it is. *)
Lemma dedent_idempotent (text : string) :
  dedent (dedent text) = dedent text.
Proof.
  rewrite (dedent_lines text).
  set (ls := map strip_whitespace_only (split_lines text)).
  set (m := margin_of ls).
  set (ls2 := map (remove_margin m) ls).
  assert (Hm : all_chars is_indent_char m = true)
    by apply margin_of_indent.
  assert (Hclean : Forall clean ls) by apply strip_lines_clean.
  assert (Hinv : forall x, In x ls ->
            clean (remove_margin m x)
            /\ reindent m (remove_margin m x) = x).
  { intros x Hin. apply remove_margin_inv; [assumption| |].
    - rewrite Forall_forall in Hclean; auto.
    - now apply margin_of_prefix. }
  assert (Hclean2 : Forall clean ls2).
  { apply Forall_forall. intros y Hy.
    apply in_map_iff in Hy as [x [<- Hin]]. now apply Hinv. }
  assert (Hback : map (reindent m) ls2 = ls).
  { unfold ls2. rewrite map_map. rewrite <- (map_id ls) at 2.
    apply map_ext_in. intros x Hin. now apply Hinv. }
  assert (Hsplit : split_lines (join_lines ls2) = ls2).
  { apply split_join.
    - unfold ls2, ls. pose proof (split_lines_not_nil text).
      destruct (split_lines text); [congruence | discriminate].
    - apply Forall_forall. intros y Hy.
      apply in_map_iff in Hy as [x [<- Hin]].
      apply remove_margin_no_newline.
      apply in_map_iff in Hin as [x0 [<- Hin]].
      apply strip_no_newline.
      pose proof (split_lines_no_newline text) as Hall.
      rewrite Forall_forall in Hall. now apply Hall. }
  rewrite dedent_lines, Hsplit.
  assert (Hstrip : map strip_whitespace_only ls2 = ls2).
  { rewrite <- (map_id ls2) at 2. apply map_ext_in. intros y Hy.
    rewrite Forall_forall in Hclean2. now apply strip_of_clean, Hclean2. }
  rewrite Hstrip. f_equal.
  rewrite <- (remove_margin_reindent m ls2) by assumption.
  now rewrite Hback.
Qed.

(** *** The dedented text is the raw text less its common margin *)

Lemma prefix_app_l (w a : string) : String.prefix w (w ++ a) = true.
Proof.
  induction w as [|c w IH]; [apply prefix_nil_l|].
  change (String.prefix (String c w) (String c (w ++ a)) = true).
  now rewrite prefix_cons, Ascii.eqb_refl.
Qed.

Lemma prefix_antisym (a b : string) :
  String.prefix a b = true -> String.prefix b a = true -> a = b.
Proof.
  revert b; induction a as [|x a IH]; intros [|y b] Hab Hba;
    try reflexivity; try discriminate.
  rewrite prefix_cons in Hab, Hba.
  apply andb_true_iff in Hab as [Hxy Hab].
  apply andb_true_iff in Hba as [_ Hba].
  apply Ascii.eqb_eq in Hxy; subst y. f_equal. now apply IH.
Qed.

Lemma app_inv_head (w a b : string) : w ++ a = w ++ b -> a = b.
Proof.
  induction w as [|c w IH]; [trivial|].
  simpl. intros [= H]. now apply IH.
Qed.

Lemma common_prefix_greatest (w a b : string) :
  String.prefix w a = true -> String.prefix w b = true ->
  String.prefix w (common_prefix a b) = true.
Proof.
  revert a b; induction w as [|c w IH]; intros a b Ha Hb;
    [apply prefix_nil_l|].
  destruct a as [|x a]; [discriminate|].
  destruct b as [|y b]; [discriminate|].
  rewrite prefix_cons in Ha, Hb.
  apply andb_true_iff in Ha as [Hx Ha].
  apply andb_true_iff in Hb as [Hy Hb].
  apply Ascii.eqb_eq in Hx, Hy; subst x y.
  cbn [common_prefix]. rewrite Ascii.eqb_refl.
  rewrite prefix_cons, Ascii.eqb_refl. simpl. now apply IH.
Qed.

Lemma prefix_leading_whitespace (w l : string) :
  all_chars is_indent_char w = true ->
  String.prefix w l = true ->
  String.prefix w (leading_whitespace l) = true.
Proof.
  revert l; induction w as [|c w IH]; intros l Hw Hp;
    [apply prefix_nil_l|].
  destruct l as [|x l]; [discriminate|].
  rewrite prefix_cons in Hp. apply andb_true_iff in Hp as [Hx Hp].
  apply Ascii.eqb_eq in Hx; subst x.
  cbn [all_chars] in Hw. apply andb_true_iff in Hw as [Hc Hw].
  cbn [leading_whitespace]. rewrite Hc.
  rewrite prefix_cons, Ascii.eqb_refl. simpl. now apply IH.
Qed.

Lemma margin_step_greatest (w m i m' : string) :
  String.prefix w m = true -> String.prefix w i = true ->
  margin_step (Some m) i = Some m' ->
  String.prefix w m' = true.
Proof.
  intros Hm Hi. unfold margin_step.
  destruct (String.prefix m i); [now intros [= <-]|].
  destruct (String.prefix i m); [now intros [= <-]|].
  intros [= <-]. now apply common_prefix_greatest.
Qed.

Lemma fold_margin_greatest (w : string) (is_ : list string) (m r : string) :
  String.prefix w m = true ->
  Forall (fun i => String.prefix w i = true) is_ ->
  fold_left margin_step is_ (Some m) = Some r ->
  String.prefix w r = true.
Proof.
  intros Hm Hall. revert m Hm.
  induction Hall as [|i is_ Hi _ IH]; intros m Hm H.
  - now injection H as <-.
  - cbn [fold_left] in H.
    destruct (margin_step (Some m) i) as [m'|] eqn:E.
    + apply (IH m'); [|assumption].
      now apply (margin_step_greatest w m i m').
    + unfold margin_step in E.
      destruct (String.prefix m i); [discriminate|].
      destruct (String.prefix i m); discriminate.
Qed.

(** A run of spaces and tabs in front of every line with content is in
    front of the margin. *)
Lemma margin_of_greatest (w : string) (ls : list string) :
  all_chars is_indent_char w = true ->
  (forall x, In x ls -> has_content x = true -> String.prefix w x = true) ->
  existsb has_content ls = true ->
  String.prefix w (margin_of ls) = true.
Proof.
  intros Hw Hall Hex. unfold margin_of.
  assert (Hne : map leading_whitespace (filter has_content ls) <> []).
  { apply existsb_exists in Hex as [x [Hin Hx]].
    assert (Hf : In x (filter has_content ls)) by (apply filter_In; now split).
    destruct (filter has_content ls); [destruct Hf | discriminate]. }
  assert (Hind : Forall (fun i => String.prefix w i = true)
                   (map leading_whitespace (filter has_content ls))).
  { apply Forall_forall. intros i Hi.
    apply in_map_iff in Hi as [x [<- Hx]].
    apply filter_In in Hx as [Hin Hc].
    apply prefix_leading_whitespace; auto. }
  destruct (map leading_whitespace (filter has_content ls)) as [|i is_];
    [congruence|].
  unfold find_margin. cbn [fold_left margin_step].
  inversion Hind as [|? ? Hi His]; subst.
  destruct (fold_margin_some is_ i) as [r Hr]. rewrite Hr.
  now apply (fold_margin_greatest w is_ i r).
Qed.

(** The lines of the dedented text. *)
Lemma split_lines_dedent (text : string) :
  let lines := map strip_whitespace_only (split_lines text) in
  split_lines (dedent text) = map (remove_margin (margin_of lines)) lines.
Proof.
  intros lines. rewrite dedent_lines. fold lines.
  apply split_join.
  - unfold lines. pose proof (split_lines_not_nil text).
    destruct (split_lines text); [congruence | discriminate].
  - apply Forall_forall. intros y Hy.
    apply in_map_iff in Hy as [x [<- Hin]].
    apply remove_margin_no_newline.
    apply in_map_iff in Hin as [x0 [<- Hin]].
    apply strip_no_newline.
    pose proof (split_lines_no_newline text) as Hall.
    rewrite Forall_forall in Hall. now apply Hall.
Qed.

Lemma Forall2_map_r {A B : Type} (P : A -> B -> Prop) (f : A -> B)
    (l : list A) :
  (forall x, In x l -> P x (f x)) -> Forall2 P l (map f l).
Proof.
  induction l as [|a l IH]; intros H; constructor.
  - apply H. now left.
  - apply IH. intros x Hx. apply H. now right.
Qed.

Lemma Forall2_functional {A B : Type} (P Q : A -> B -> Prop)
    (l : list A) (a b : list B) :
  (forall x y z, In x l -> P x y -> Q x z -> y = z) ->
  Forall2 P l a -> Forall2 Q l b -> a = b.
Proof.
  intros Hfun Ha. revert b.
  induction Ha as [|x y l a Hxy _ IH]; intros b Hb.
  - now inversion Hb.
  - inversion Hb as [|? z ? b' Hxz Hb']; subst. f_equal.
    + apply (Hfun x); [now left | assumption | assumption].
    + apply IH; [|assumption].
      intros x' y' z' Hin. apply Hfun. now right.
Qed.

Lemma Forall2_Forall_l {A B : Type} (P : A -> B -> Prop) (Q : A -> Prop)
    (l : list A) (a : list B) :
  (forall x y, P x y -> Q x) -> Forall2 P l a -> Forall Q l.
Proof.
  intros H Ha. induction Ha; constructor; eauto.
Qed.

(** [dedent] takes the common margin off, in the sense of [dedented]. *)
Lemma dedent_dedented (text : string) : dedented text (dedent text).
Proof.
  set (ls := map strip_whitespace_only (split_lines text)).
  exists (margin_of ls).
  split; [apply margin_of_indent|]. split.
  - rewrite split_lines_dedent. fold ls. unfold ls. rewrite map_map.
    apply Forall2_map_r. intros x Hin.
    destruct (has_content x) eqn:Hx.
    + rewrite (strip_content x Hx).
      assert (Hp : String.prefix (margin_of ls) x = true).
      { apply margin_of_prefix; [|assumption].
        unfold ls. rewrite <- (strip_content x Hx). now apply in_map. }
      unfold remove_margin. fold ls. rewrite Hp.
      now apply prefix_split.
    + rewrite (strip_blank x Hx). apply remove_margin_empty.
  - intros w Hw Hall Hex. apply margin_of_greatest; [assumption| |].
    + intros x Hin Hx. unfold ls in Hin.
      apply in_map_iff in Hin as [x0 [Hx0 Hin]].
      rewrite Forall_forall in Hall.
      destruct (has_content x0) eqn:E.
      * rewrite (strip_content x0 E) in Hx0. subst x0. now apply Hall.
      * rewrite (strip_blank x0 E) in Hx0. subst x. discriminate.
    + apply existsb_exists in Hex as [x [Hin Hx]].
      apply existsb_exists. exists x. split; [|assumption].
      unfold ls. rewrite <- (strip_content x Hx). now apply in_map.
Qed.

(** No other text is: [dedented] determines the stored text. *)
Lemma dedented_unique (raw s1 s2 : string) :
  dedented raw s1 -> dedented raw s2 -> s1 = s2.
Proof.
  intros [m1 [Hm1 [H1 Hmax1]]] [m2 [Hm2 [H2 Hmax2]]].
  assert (Hpre : forall m s,
            Forall2
              (fun l l' =>
                 if has_content l then l = m ++ l' else l' = EmptyString)
              (split_lines raw) (split_lines s) ->
            Forall (fun l => has_content l = true -> String.prefix m l = true)
                   (split_lines raw)).
  { intros m s H. eapply Forall2_Forall_l; [|exact H].
    intros x y Hxy Hx. cbv beta in Hxy. rewrite Hx in Hxy. subst x.
    apply prefix_app_l. }
  assert (Hm : existsb has_content (split_lines raw) = true -> m1 = m2).
  { intros Hex. apply prefix_antisym.
    - apply Hmax2; [assumption | now apply (Hpre m1 s1) | assumption].
    - apply Hmax1; [assumption | now apply (Hpre m2 s2) | assumption]. }
  rewrite <- (join_split s1), <- (join_split s2). f_equal.
  eapply Forall2_functional; [|exact H1 | exact H2].
  intros x y z Hin Hy Hz. cbv beta in Hy, Hz.
  destruct (has_content x) eqn:Hx.
  - rewrite Hm in Hy by (apply existsb_exists; now exists x).
    apply (app_inv_head m2). congruence.
  - congruence.
Qed.

End TextwrapFacts.

(** ** Findings *)

Section FindingsFacts.

Context {rt : Runtime}.

(** *** Equality and hashing *)

Lemma Finding_eq_spec (f g : Finding) :
  Finding_eq f g = true
  <-> check_id f = check_id g /\ path f = path g
      /\ syntactic_context f = syntactic_context g.
Proof.
  unfold Finding_eq. rewrite !andb_true_iff, !String.eqb_eq. tauto.
Qed.

Lemma identity_Finding_eq (f g : Finding) :
  identity f = identity g -> Finding_eq f g = true.
Proof.
  unfold identity. intros [= H1 H2 _ H4]. apply Finding_eq_spec. auto.
Qed.

Lemma identity_hash (f g : Finding) :
  identity f = identity g -> Finding_hash f = Finding_hash g.
Proof.
  unfold identity, Finding_hash, syntactic_identifier_int.
  intros [= -> -> -> ->]. reflexivity.
Qed.

Lemma Finding_eq_refl (f : Finding) : Finding_eq f f = true.
Proof. apply Finding_eq_spec. auto. Qed.

Lemma same_element_refl (f : Finding) : same_element f f = true.
Proof.
  unfold same_element. now rewrite Z.eqb_refl, Finding_eq_refl.
Qed.

Lemma Finding_eq_evolve (f : Finding) (i j : Z) :
  Finding_eq (evolve_index f i) (evolve_index f j) = true.
Proof. apply Finding_eq_spec. auto. Qed.

Lemma index_evolve (f : Finding) (i : Z) : index (evolve_index f i) = i.
Proof. reflexivity. Qed.

(** X1: on a finding made by the constructor, [attr.evolve] changes the
    index and nothing else: running the [textwrap.dedent] converter on a
    text it already produced leaves that text as it is. *)
Lemma evolve_index_init (c p : string) (l col : Z) (msg : string)
    (sev idx : Z) (ctx : string) (el ec : option Z)
    (cd : option datetime) (md : pydict string pyval) (i : Z) :
  evolve_index (Finding_init c p l col msg sev idx ctx el ec cd md) i
  = Finding_init c p l col msg sev i ctx el ec cd md.
Proof.
  unfold evolve_index, Finding_init. cbn.
  now rewrite TextwrapFacts.dedent_idempotent.
Qed.

(** *** Sets *)

Lemma set_contains_self (s : pyset) (x : Finding) :
  In x s -> set_contains s x = true.
Proof.
  intros Hin. apply existsb_exists. exists x.
  split; [assumption | apply same_element_refl].
Qed.

Lemma filter_none {A : Type} (p : A -> bool) (l : list A) :
  (forall x, In x l -> p x = false) -> filter p l = [].
Proof.
  induction l as [|a l IH]; intros H; [reflexivity|].
  simpl. rewrite (H a (or_introl eq_refl)).
  apply IH. intros x Hx. apply H. now right.
Qed.

Lemma set_difference_self (s : pyset) : set_difference s s = [].
Proof.
  apply filter_none. intros x Hin.
  now rewrite set_contains_self.
Qed.

Lemma set_add_In (s : pyset) (x y : Finding) :
  In y (set_add s x) -> In y s \/ y = x.
Proof.
  unfold set_add. destruct (set_contains s x); [now left|].
  intros H. apply in_app_or in H as [H|[H|[]]]; auto.
Qed.

Lemma set_of_In (l : list Finding) (s : pyset) (y : Finding) :
  In y (fold_left set_add l s) -> In y s \/ In y l.
Proof.
  revert s; induction l as [|x l IH]; intros s H; [now left|].
  cbn [fold_left] in H. apply IH in H as [H|H]; [|right; now right].
  apply set_add_In in H as [H| ->]; [now left | right; now left].
Qed.

(** An element whose hash no member has is not in the set. *)
Lemma set_contains_fresh (s : pyset) (x : Finding) :
  (forall y, In y s -> hash_of y <> hash_of x) ->
  set_contains s x = false.
Proof.
  intros H. unfold set_contains.
  apply not_true_is_false. intros Hex.
  apply existsb_exists in Hex as [y [Hy Hsame]].
  unfold same_element in Hsame. apply andb_true_iff in Hsame as [Hh _].
  apply Z.eqb_eq in Hh. now apply (H y Hy).
Qed.

(** A set holds members of the list it was made from only. *)
Lemma set_of_sound (l : list Finding) (y : Finding) :
  In y (set_of l) -> In y l.
Proof.
  intros H. apply set_of_In in H as [[]|H]. exact H.
Qed.

(** With members that are all equal under [__eq__], membership is
    decided by the hashes alone. *)
Lemma set_contains_evolve (A : Finding) (s : list Z) (j : Z) :
  set_contains (map (evolve_index A) s) (evolve_index A j)
  = existsb (fun i => hash_of (evolve_index A i) =? hash_of (evolve_index A j))
      s.
Proof.
  unfold set_contains. induction s as [|i s IH]; [reflexivity|].
  cbn [map existsb]. rewrite IH. f_equal.
  unfold same_element. now rewrite Finding_eq_evolve, andb_true_r.
Qed.

(** *** Identifier rendering *)

Lemma digits_big_length (n : nat) (x : Z) :
  List.length (PyInt.digits_big n x) = n.
Proof.
  revert x; induction n as [|n IH]; intros x; [reflexivity|].
  cbn [PyInt.digits_big]. rewrite length_app, IH. simpl. lia.
Qed.

Lemma hexlify_length (bs : list Z) :
  String.length (PyInt.hexlify bs) = (2 * List.length bs)%nat.
Proof.
  induction bs as [|b bs IH]; [reflexivity|].
  cbn [PyInt.hexlify String.length List.length]. rewrite IH. lia.
Qed.

Lemma to_bytes_in_range (x : Z) (n : nat) :
  0 <= x < 256 ^ Z.of_nat n ->
  PyInt.to_bytes x n = Ok (PyInt.digits_big n x).
Proof.
  intros [H0 H1]. unfold PyInt.to_bytes.
  destruct (Z.ltb_spec x 0); [lia|].
  destruct (Z.leb_spec (256 ^ Z.of_nat n) x); [lia | reflexivity].
Qed.

Lemma syntactic_identifier_str_in_range (f : Finding) :
  0 <= syntactic_identifier_int f < 2 ^ 128 ->
  exists s, syntactic_identifier_str f = Ok s /\ String.length s = 32%nat.
Proof.
  intros H. unfold syntactic_identifier_str.
  rewrite to_bytes_in_range by (change (256 ^ Z.of_nat 16) with (2 ^ 128); lia).
  eexists; split; [reflexivity|].
  now rewrite hexlify_length, digits_big_length.
Qed.

(** *** Rendering as a dictionary *)

(** Without a commit date [to_dict] raises. *)
Lemma to_dict_no_commit_date (f : Finding) :
  commit_date f = None -> exists e, to_dict f = Err e.
Proof.
  intros H. unfold to_dict.
  destruct (syntactic_identifier_str f) as [sid|e]; [|now exists e].
  exists (KeyError "commit_date").
  unfold asdict. rewrite H.
  destruct (end_line f), (end_column f); reflexivity.
Qed.

(** With one, and an identifier of 128 bits, it returns the attributes
    that are not [None], the identifier and the date as text. *)
Lemma to_dict_commit_date (f : Finding) (dt : datetime) :
  commit_date f = Some dt ->
  0 <= syntactic_identifier_int f < 2 ^ 128 ->
  exists d sid,
    to_dict f = Ok d
    /\ syntactic_identifier_str f = Ok sid
    /\ dict_get d "syntactic_id" = Some (VStr sid)
    /\ dict_get d "commit_date" = Some (VStr (isoformat dt))
    /\ Forall (fun kv => snd kv <> VNone) d.
Proof.
  intros Hd Hr.
  destruct (syntactic_identifier_str_in_range f Hr) as [sid [Hsid _]].
  unfold to_dict, asdict. rewrite Hsid, Hd.
  destruct (end_line f), (end_column f); cbn;
    eexists; exists sid; (split; [reflexivity|]);
    (split; [reflexivity|]); (split; [reflexivity|]);
    (split; [reflexivity|]);
    repeat constructor; discriminate.
Qed.

(** *** Blocking *)

Lemma in_block_list (x : string) (l : list pyval) :
  existsb (fun e => match e with
                    | PStr s => String.eqb x s
                    | _ => false
                    end) l = true
  <-> In (PStr x) l.
Proof.
  rewrite existsb_exists. split.
  - intros [e [Hin He]]. destruct e; try discriminate.
    apply String.eqb_eq in He. now subst.
  - intros Hin. exists (PStr x). split; [assumption|].
    apply String.eqb_refl.
Qed.

(** *** Main results on findings *)

(** C3: the text a finding made by [from_semgrep_result] stores is the
    matched text dedented, that is the raw text less its common margin of
    spaces and tabs ([Textwrap.dedented], which holds of no other text).
    Hence two raw match records that differ only by a uniform margin of
    spaces and tabs in front of the lines of the matched text give
    findings that are the same record, are equal and have the same
    hash. *)
Theorem from_semgrep_result_indentation
    (r : SemgrepResult) (w text' : string) (d : option datetime) :
  PyStr.all_chars PyStr.is_indent_char w = true ->
  Textwrap.indented_by w (lines (extra r)) text' ->
  let f := snd (from_semgrep_result r d) in
  let g := snd (from_semgrep_result (with_lines r text') d) in
  Textwrap.dedented (lines (extra r)) (syntactic_context f)
  /\ Textwrap.dedented text' (syntactic_context g)
  /\ (forall s, Textwrap.dedented (lines (extra r)) s ->
                s = syntactic_context f)
  /\ f = g /\ Finding_eq f g = true /\ Finding_hash f = Finding_hash g
  /\ hash_of f = hash_of g.
Proof.
  intros Hw Hind f g.
  assert (Hf : Textwrap.dedented (lines (extra r)) (syntactic_context f))
    by apply TextwrapFacts.dedent_dedented.
  assert (Hg : Textwrap.dedented text' (syntactic_context g))
    by apply TextwrapFacts.dedent_dedented.
  assert (Hfg : f = g).
  { unfold f, g, from_semgrep_result, with_lines, Finding_init. cbn.
    now rewrite (TextwrapFacts.dedent_indented w (lines (extra r)) text'). }
  split; [exact Hf|]. split; [exact Hg|]. split.
  - intros s Hs. exact (TextwrapFacts.dedented_unique _ _ _ Hs Hf).
  - rewrite <- Hfg. repeat split. apply Finding_eq_refl.
Qed.

(** C7: diffing a snapshot against itself yields no new finding: for
    every mapping [m], [expensive_new] of the pair [(m, m)] is the empty
    set. *)
Theorem expensive_new_self (m : pydict FindingKey (list Finding)) :
  expensive_new {| baseline_map := m; current_map := m |} = [].
Proof.
  unfold expensive_new, current_set, baseline_set. cbn [current_map baseline_map].
  apply set_difference_self.
Qed.

(** C8: under one key, baseline list [[]] against current list [[A]]
    yields the set holding [A] with index 0, and baseline [[A]] against
    current [[]] yields the empty set. *)
Theorem expensive_new_appear_disappear (K : FindingKey) (A : Finding) :
  expensive_new {| baseline_map := [(K, [])]; current_map := [(K, [A])] |}
  = [evolve_index A 0]
  /\ index (evolve_index A 0) = 0
  /\ expensive_new {| baseline_map := [(K, [A])]; current_map := [(K, [])] |}
     = [].
Proof. repeat split. Qed.

(** C2: with baseline list [[A; A; A]] and current list
    [[A; A; A; A; A]] under one key, [expensive_new] has exactly two
    members, and they carry the indices 3 and 4, whenever the hashes of
    the occurrences 3 and 4 differ from each other and from those of the
    occurrences 0, 1 and 2. *)
Theorem expensive_new_three_five (K : FindingKey) (A : Finding) :
  separated (map hash_of (map (evolve_index A) [0; 1; 2]))
            (map hash_of (map (evolve_index A) [3; 4])) = true ->
  let new :=
    expensive_new
      {| baseline_map := [(K, [A; A; A])];
         current_map := [(K, [A; A; A; A; A])] |} in
  new = [evolve_index A 3; evolve_index A 4]
  /\ List.length new = 2%nat
  /\ map index new = [3; 4].
Proof.
  intros Hsep new.
  set (B := set_of (map (evolve_index A) [0; 1; 2])).
  cbn [map separated existsb] in Hsep.
  repeat match goal with
         | H : (_ && _) = true |- _ => apply andb_true_iff in H as [? ?]
         | H : negb _ = true |- _ => apply negb_true_iff in H
         | H : (_ || _) = false |- _ => apply orb_false_iff in H as [? ?]
         | H : (_ =? _) = false |- _ => apply Z.eqb_neq in H
         end.
  assert (HB : forall y, In y B ->
            y = evolve_index A 0 \/ y = evolve_index A 1
            \/ y = evolve_index A 2).
  { intros y Hy. apply set_of_sound in Hy.
    cbn in Hy. intuition auto. }
  assert (Hc3 : set_contains B (evolve_index A 3) = false).
  { apply set_contains_fresh. intros y Hy.
    destruct (HB y Hy) as [->|[->| ->]]; congruence. }
  assert (Hc4 : set_contains B (evolve_index A 4) = false).
  { apply set_contains_fresh. intros y Hy.
    destruct (HB y Hy) as [->|[->| ->]]; congruence. }
  assert (H34 : set_contains (B ++ [evolve_index A 3])%list (evolve_index A 4)
                = false).
  { apply set_contains_fresh. intros y Hy.
    apply in_app_or in Hy as [Hy|[<-|[]]]; [|congruence].
    destruct (HB y Hy) as [->|[->| ->]]; congruence. }
  assert (Hcur : current_set
                   {| baseline_map := [(K, [A; A; A])];
                      current_map := [(K, [A; A; A; A; A])] |}
                 = (B ++ [evolve_index A 3; evolve_index A 4])%list).
  { change (set_add (set_add B (evolve_index A 3)) (evolve_index A 4)
            = (B ++ [evolve_index A 3; evolve_index A 4])%list).
    unfold set_add at 2. rewrite Hc3.
    unfold set_add. rewrite H34. now rewrite <- app_assoc. }
  assert (Hnew : new = [evolve_index A 3; evolve_index A 4]).
  { unfold new, expensive_new. rewrite Hcur.
    change (baseline_set _) with B.
    unfold set_difference. rewrite filter_app.
    fold (set_difference B B). rewrite set_difference_self.
    cbn [filter app]. now rewrite Hc3, Hc4. }
  rewrite Hnew. repeat split.
Qed.

(** When the hash tells nothing apart the same snapshots give no new
    finding at all: equality alone does not separate the occurrences. *)
Lemma expensive_new_collision (K : FindingKey) (A : Finding) :
  (forall f g, hash_of f = hash_of g) ->
  expensive_new
    {| baseline_map := [(K, [A; A; A])];
       current_map := [(K, [A; A; A; A; A])] |} = [].
Proof.
  intros Hcoll.
  assert (Hadd : forall j,
            set_add [evolve_index A 0] (evolve_index A j)
            = [evolve_index A 0]).
  { intros j. unfold set_add.
    change [evolve_index A 0] with (map (evolve_index A) [0]).
    rewrite (set_contains_evolve A [0] j). cbn [existsb].
    now rewrite (Hcoll (evolve_index A 0) (evolve_index A j)), Z.eqb_refl. }
  change (set_difference (set_of (map (evolve_index A) [0; 1; 2; 3; 4]))
                         (set_of (map (evolve_index A) [0; 1; 2])) = []).
  unfold set_of. cbn [map fold_left].
  change (set_add [] (evolve_index A 0)) with [evolve_index A 0].
  rewrite !Hadd. apply set_difference_self.
Qed.

(** C10, for the metadata it holds of: with the action key absent from
    the metadata, or holding a list, [is_blocking] returns a boolean; it
    returns false exactly when the key is present and its list does not
    contain "block", and true when the key is absent. *)
Theorem is_blocking_spec (f : Finding) (l : list pyval) :
  actions_listed (metadata f) = Some l ->
  (exists b, is_blocking f = Ok b)
  /\ (is_blocking f = Ok false <-> lists_non_blocking (metadata f))
  /\ (dict_get (metadata f) "dev.semgrep.actions" = None ->
      is_blocking f = Ok true).
Proof.
  unfold actions_listed, is_blocking, lists_non_blocking.
  destruct (dict_get (metadata f) "dev.semgrep.actions") as [v|] eqn:E.
  - destruct v; try discriminate. intros [= ->]. cbn [py_in].
    pose proof (in_block_list "block" l) as Hb.
    set (b := existsb _ l) in *.
    split; [eexists; reflexivity|]. split; [|discriminate].
    split.
    + intros Hf. assert (Hbf : b = false) by congruence.
      exists l. split; [reflexivity|].
      intros Hin. apply Hb in Hin. congruence.
    + intros [l' [[= <-] Hnot]]. f_equal.
      destruct b; [|reflexivity]. exfalso. now apply Hnot, Hb.
  - intros _. split; [now exists true|]. split; [|reflexivity].
    split; [discriminate|]. now intros [l' [H _]].
Qed.

End FindingsFacts.

(** C1: equality does not look at the occurrence index.  The first and
    the second occurrence of one finding are equal under [__eq__], yet
    their identity-relevant attributes differ and so do their hashes:
    equality does not coincide with equality of (check_id, path, index,
    syntactic_context), and equal findings need not hash alike. *)
Theorem Finding_eq_ignores_index :
  let f := evolve_index Sample.finding_A 0 in
  let g := evolve_index Sample.finding_A 1 in
  Finding_eq f g = true
  /\ identity f <> identity g
  /\ Finding_hash (rt := Sample.runtime) f
     <> Finding_hash (rt := Sample.runtime) g
  /\ hash_of (rt := Sample.runtime) f <> hash_of (rt := Sample.runtime) g.
Proof.
  cbv zeta. split; [reflexivity|].
  split; [unfold identity; cbn; congruence|].
  split; vm_compute; discriminate.
Qed.

(** C6: [to_dict] on a finding without a commit date does not return a
    mapping; it raises [KeyError]. *)
Theorem to_dict_without_commit_date :
  commit_date Sample.finding_no_date = None
  /\ to_dict (rt := Sample.runtime) Sample.finding_no_date
     = Err (KeyError "commit_date").
Proof. split; [reflexivity | vm_compute; reflexivity]. Qed.

(** C10, as stated for every finding, fails where the action entry is
    not a list.  With nothing under the key ([None]) [is_blocking] does
    not return: it raises [TypeError]; with the text "monitor" under the
    key it returns false although the metadata holds no list. *)
Lemma is_blocking_without_list :
  (~ lists_non_blocking (metadata Fixtures.finding_null_action)
   /\ exists msg,
        is_blocking Fixtures.finding_null_action = Err (TypeError msg))
  /\ (~ lists_non_blocking (metadata Fixtures.finding_monitor_text)
      /\ is_blocking Fixtures.finding_monitor_text = Ok false).
Proof.
  split; (split; [|try (eexists; reflexivity); reflexivity]);
    intros [l [Hl _]]; cbn in Hl; discriminate.
Qed.

(** *** The results at sample findings *)

Lemma from_semgrep_result_indentation_witness :
  snd (from_semgrep_result Sample.a_result None)
  = snd (from_semgrep_result
           (with_lines Sample.a_result Sample.shifted_lines) None).
Proof.
  refine (proj1 (proj2 (proj2 (proj2
            (from_semgrep_result_indentation (rt := Sample.runtime)
               Sample.a_result "    " Sample.shifted_lines None _ _))))).
  - reflexivity.
  - unfold Textwrap.indented_by. vm_compute.
    constructor; [left; reflexivity|].
    constructor; [right; split; reflexivity|].
    constructor; [left; reflexivity|].
    constructor.
Defined.

Lemma expensive_new_three_five_witness :
  map index
    (expensive_new (rt := Sample.runtime)
       {| baseline_map :=
            [(Sample.key_A,
              [Sample.finding_A; Sample.finding_A; Sample.finding_A])];
          current_map :=
            [(Sample.key_A,
              [Sample.finding_A; Sample.finding_A; Sample.finding_A;
               Sample.finding_A; Sample.finding_A])] |})
  = [3; 4].
Proof.
  refine (proj2 (proj2 (expensive_new_three_five (rt := Sample.runtime)
                          Sample.key_A Sample.finding_A _))).
  vm_compute. reflexivity.
Defined.

Lemma is_blocking_spec_witness :
  is_blocking Sample.finding_monitor = Ok false
  <-> lists_non_blocking (metadata Sample.finding_monitor).
Proof.
  refine (proj1 (proj2 (is_blocking_spec Sample.finding_monitor
                          [PStr "monitor"] _))).
  reflexivity.
Defined.

(** ** [fix_head_for_github] *)

Module GitHeadFacts.
Import GitHead.

Section Facts.

Context {env : Git}.

Lemma echo_run (msg : string) (w : world) :
  echo msg w
  = (Ok tt, {| state := state w; trace := trace w ++ [Echo msg] |}).
Proof. reflexivity. Qed.

Lemma git_run (argv : list string) (w : world) :
  git argv w
  = (fst (git_exec argv (state w)),
     {| state := snd (git_exec argv (state w));
        trace := trace w ++ [GitCmd argv] |}).
Proof. unfold git. now destruct (git_exec argv (state w)). Qed.

(** With a repository around, the function is its set-up followed by
    the guarded block. *)
Lemma fix_head_for_github_steps {A : Type}
    (base_commit_ref head_ref : option string)
    (body : option string -> M A) (w : world) :
  get_git_repo (state w) <> None ->
  fix_head_for_github base_commit_ref head_ref body w
  = match setup base_commit_ref head_ref w with
    | (Ok p, w1) =>
        try_finally (bind (log_commits (fst p)) (fun _ => body (fst p)))
                    (restore_head (snd p)) w1
    | (Err e, w1) => (Err e, w1)
    end.
Proof.
  intros Hrepo. unfold fix_head_for_github.
  destruct (get_git_repo (state w)); [|congruence].
  unfold bind at 1. now destruct (setup base_commit_ref head_ref w) as [[p|e] w1].
Qed.

(** Without a repository the block runs on the requested baseline and
    nothing else happens. *)
Lemma fix_head_for_github_no_repo {A : Type}
    (base_commit_ref head_ref : option string)
    (body : option string -> M A) (w : world) :
  get_git_repo (state w) = None ->
  fix_head_for_github base_commit_ref head_ref body w
  = body base_commit_ref w.
Proof. intros H. unfold fix_head_for_github. now rewrite H. Qed.

(** The restoration, run on any world. *)
Lemma restore_head_run (s : string) (w : world) :
  restore_head (Some s) w
  = (match fst (git_exec ["checkout"; s] (state w)) with
     | Ok _ => Ok tt
     | Err e => Err e
     end,
     {| state := snd (git_exec ["checkout"; s] (state w));
        trace := trace w
                 ++ [Echo ("| returning to original head revision " ++ s);
                     GitCmd ["checkout"; s]] |}).
Proof.
  unfold restore_head, bind. rewrite echo_run, git_run. cbn [state trace].
  rewrite <- app_assoc. cbn [app].
  now destruct (fst (git_exec ["checkout"; s] (state w))).
Qed.

(** Resolving the baseline and logging the commits run no checkout. *)
Lemma resolve_base_ref_events (base_ref : option string) (w : world) :
  exists evs, after w (snd (resolve_base_ref base_ref w)) evs
              /\ existsb is_checkout evs = false.
Proof.
  unfold resolve_base_ref, after.
  destruct base_ref as [b|]; [|exists []; now rewrite app_nil_r].
  destruct (truthy (Some b)); [|exists []; now rewrite app_nil_r].
  unfold bind. rewrite git_run.
  exists [GitCmd ["rev-parse"; b]].
  split; [|reflexivity].
  now destruct (fst (git_exec ["rev-parse"; b] (state w))).
Qed.

Lemma log_commits_events (base_ref : option string) (w : world) :
  exists evs, after w (snd (log_commits base_ref w)) evs
              /\ existsb is_checkout evs = false.
Proof.
  unfold log_commits, after.
  destruct base_ref as [b|]; [|exists []; now rewrite app_nil_r].
  unfold bind. rewrite echo_run, git_run. cbn [state trace].
  destruct (fst (git_exec _ _)) as [out|e].
  - rewrite echo_run. cbn [snd trace]. rewrite <- !app_assoc.
    eexists; split; [reflexivity | reflexivity].
  - cbn [snd trace]. rewrite <- !app_assoc.
    eexists; split; [reflexivity | reflexivity].
Qed.

Lemma after_refl (w : world) : after w w [].
Proof. unfold after. now rewrite app_nil_r. Qed.

Lemma after_trans (w w1 w2 : world) (e1 e2 : list event) :
  after w w1 e1 -> after w1 w2 e2 -> after w w2 (e1 ++ e2).
Proof. unfold after. intros H1 H2. now rewrite H2, H1, app_assoc. Qed.

Lemma current_position_events (w : world) :
  exists evs, after w (snd (current_position w)) evs
              /\ existsb is_checkout evs = false.
Proof.
  unfold current_position, after, bind. rewrite git_run.
  destruct (fst (git_exec ["branch"; "--show-current"] (state w)))
    as [out|e]; cbn [snd trace].
  - destruct (String.eqb (rstrip out) EmptyString).
    + rewrite git_run. cbn [state trace].
      destruct (fst (git_exec _ _)); cbn [snd trace];
        rewrite <- app_assoc; eexists; split; reflexivity.
    + eexists; split; reflexivity.
  - eexists; split; reflexivity.
Qed.

Lemma checkout_head_falsy (head_ref : option string) :
  truthy head_ref = false -> checkout_head head_ref = ret None.
Proof.
  unfold checkout_head. destruct head_ref as [h|]; [|reflexivity].
  now intros ->.
Qed.

Lemma try_finally_no_restore {A : Type} (m : M A) (w : world) :
  try_finally m (restore_head None) w = m w.
Proof. unfold try_finally, restore_head, ret. now destruct (m w). Qed.

(** C5: once the set-up has recorded the position [s] and checked out
    the head ref, the function checks [s] out again after the guarded
    block, whatever the block did: the restoring checkout follows the
    events of the block, and the outcome of the block, an error
    included, is what the caller receives afterwards (unless the
    restoring checkout raises itself). *)
Theorem restore_on_every_exit {A : Type}
    (base_commit_ref head_ref : option string)
    (body : option string -> M A) (w : world)
    (b : option string) (s : string) (w1 : world)
    (r2 : result A) (w2 : world) :
  get_git_repo (state w) <> None ->
  setup base_commit_ref head_ref w = (Ok (b, Some s), w1) ->
  bind (log_commits b) (fun _ => body b) w1 = (r2, w2) ->
  truthy head_ref = true
  /\ fix_head_for_github base_commit_ref head_ref body w
     = (match fst (git_exec ["checkout"; s] (state w2)) with
        | Ok _ => r2
        | Err e => Err e
        end,
        {| state := snd (git_exec ["checkout"; s] (state w2));
           trace := trace w2
                    ++ [Echo ("| returning to original head revision " ++ s);
                        GitCmd ["checkout"; s]] |}).
Proof.
  intros Hrepo Hsetup Hscope. split.
  - destruct (truthy head_ref) eqn:E; [reflexivity|].
    unfold setup in Hsetup. rewrite (checkout_head_falsy _ E) in Hsetup.
    unfold bind, ret in Hsetup.
    destruct (resolve_base_ref base_commit_ref w) as [[b0|e] w0];
      discriminate.
  - rewrite fix_head_for_github_steps by assumption.
    rewrite Hsetup. cbn [fst snd]. unfold try_finally.
    rewrite Hscope, restore_head_run.
    now destruct (fst (git_exec ["checkout"; s] (state w2))).
Qed.

(** C4, as the code has it, for any guarded block and with a repository
    around.  When no head ref is given (none, or the empty string) the
    function is the resolution of the baseline, the log of the commits
    and the block, none of which but the block can run a checkout.
    When a non-empty head ref [h] is given and the baseline and the
    current position [s] resolve, then for every [s], [h] itself
    included, [git checkout h] is run before the block: the commits are
    logged and the block runs in the world [w2] whose last two events
    are the announcement and that checkout, and if the checkout fails
    the block does not run at all. *)
Theorem checkout_whenever_head_ref_given {A : Type}
    (base_commit_ref head_ref : option string)
    (body : option string -> M A) (w : world) :
  get_git_repo (state w) <> None ->
  (truthy head_ref = false ->
     fix_head_for_github base_commit_ref head_ref body w
     = bind (resolve_base_ref base_commit_ref)
         (fun b => bind (log_commits b) (fun _ => body b)) w
     /\ (exists evs,
           after w (snd (resolve_base_ref base_commit_ref w)) evs
           /\ existsb is_checkout evs = false)
     /\ (forall b w0, exists evs,
           after w0 (snd (log_commits b w0)) evs
           /\ existsb is_checkout evs = false))
  /\ (forall h b w0 s w1,
        head_ref = Some h -> h <> EmptyString ->
        resolve_base_ref base_commit_ref w = (Ok b, w0) ->
        current_position w0 = (Ok s, w1) ->
        let w2 :=
          {| state := snd (git_exec ["checkout"; h] (state w1));
             trace := trace w1
                      ++ [Echo ("| not on head ref " ++ h
                                ++ "; checking that out now...");
                          GitCmd ["checkout"; h]] |} in
        fix_head_for_github base_commit_ref head_ref body w
        = match fst (git_exec ["checkout"; h] (state w1)) with
          | Ok _ =>
              try_finally (bind (log_commits b) (fun _ => body b))
                          (restore_head (Some s)) w2
          | Err e => (Err e, w2)
          end).
Proof.
  intros Hrepo. split.
  - (* no head ref *)
    intros Ehead. split; [|split].
    + rewrite fix_head_for_github_steps by assumption.
      unfold setup. rewrite (checkout_head_falsy _ Ehead).
      unfold bind at 1 4.
      destruct (resolve_base_ref base_commit_ref w) as [[b|e] w0];
        [|reflexivity].
      unfold bind at 1, ret. cbn [fst snd].
      apply try_finally_no_restore.
    + apply resolve_base_ref_events.
    + intros b w0. apply log_commits_events.
  - (* a head ref is given *)
    intros h b w0 s w1 -> Hh Hres Hpos w2.
    rewrite fix_head_for_github_steps by assumption.
    assert (Ehead : truthy (Some h) = true).
    { cbn. destruct h; [congruence | reflexivity]. }
    unfold setup, checkout_head. rewrite Ehead.
    unfold bind at 1. rewrite Hres.
    unfold bind at 1 2. rewrite Hpos.
    unfold bind at 1. rewrite echo_run.
    unfold bind at 1. rewrite git_run. cbn [state trace fst snd].
    rewrite <- app_assoc. cbn [app]. fold w2.
    now destruct (fst (git_exec ["checkout"; h] (state w1))).
Qed.

End Facts.

(** C4, as stated, fails: on branch [main], asked for the head ref
    [main], the function runs [git checkout main] before the block (and
    once more after it, to restore). *)
Lemma checkout_when_already_on_head :
  Simple.position Simple.on_main = "main"
  /\ trace (snd (Simple.run None (Some "main") Simple.body_scan
                   Simple.on_main))
     = [GitCmd ["branch"; "--show-current"];
        Echo "| not on head ref main; checking that out now...";
        GitCmd ["checkout"; "main"];
        Echo "scanning";
        Echo "| returning to original head revision main";
        GitCmd ["checkout"; "main"]].
Proof. split; reflexivity. Qed.

Lemma restore_on_every_exit_witness :
  exists w2 : world (env := Simple.simple),
    Simple.run (Some "c1") (Some "feature") Simple.body_raise Simple.on_main
    = (Err (Raised "scan failed"),
       Simple.at_state Simple.on_main
         (trace w2
          ++ [Echo "| returning to original head revision main";
              GitCmd ["checkout"; "main"]])).
Proof.
  set (w := Simple.at_state Simple.on_main []).
  set (w1 := snd (setup (Some "c1") (Some "feature") w)).
  set (w2 := snd (bind (log_commits (Some "c1"))
                       (fun _ => Simple.body_raise (Some "c1")) w1)).
  exists w2.
  refine (eq_trans
            (proj2 (restore_on_every_exit (env := Simple.simple)
                      (Some "c1") (Some "feature") Simple.body_raise w
                      (Some "c1") "main" w1 (Err (Raised "scan failed")) w2
                      _ _ _)) _).
  - discriminate.
  - reflexivity.
  - reflexivity.
  - reflexivity.
Defined.

Lemma checkout_whenever_head_ref_given_witness :
  Simple.run None (Some "main") Simple.body_scan Simple.on_main
  = try_finally
      (bind (log_commits None) (fun _ => Simple.body_scan None))
      (restore_head (Some "main"))
      (Simple.at_state Simple.on_main
         [GitCmd ["branch"; "--show-current"];
          Echo "| not on head ref main; checking that out now...";
          GitCmd ["checkout"; "main"]]).
Proof.
  refine (proj2 (checkout_whenever_head_ref_given (env := Simple.simple)
                   None (Some "main") Simple.body_scan
                   (Simple.at_state Simple.on_main []) _)
            "main" None (Simple.at_state Simple.on_main []) "main"
            (Simple.at_state Simple.on_main
               [GitCmd ["branch"; "--show-current"]])
            eq_refl _ eq_refl eq_refl).
  - discriminate.
  - discriminate.
Defined.

End GitHeadFacts.

(** ** More on the sets of findings *)

Section SetFacts.

Context {rt : Runtime}.

Lemma same_element_sym (f g : Finding) :
  same_element f g = same_element g f.
Proof.
  unfold same_element, Finding_eq.
  now rewrite Z.eqb_sym, (String.eqb_sym (check_id f)),
    (String.eqb_sym (path f)), (String.eqb_sym (syntactic_context f)).
Qed.

Lemma same_element_iff (f g : Finding) :
  same_element f g = true <-> hash_of f = hash_of g /\ eq_key f = eq_key g.
Proof.
  unfold same_element, eq_key.
  rewrite andb_true_iff, Z.eqb_eq, Finding_eq_spec.
  split.
  - intros [Hh [H1 [H2 H3]]]. split; [assumption | congruence].
  - intros [Hh [= H1 H2 H3]]. auto.
Qed.

Lemma same_element_trans (f g h : Finding) :
  same_element f g = true -> same_element g h = true ->
  same_element f h = true.
Proof.
  rewrite !same_element_iff. intros [H1 H2] [H3 H4]. split; congruence.
Qed.

(** Findings that agree on rule, path, index and text are one element. *)
Lemma identity_same_element (f g : Finding) :
  identity f = identity g -> same_element f g = true.
Proof.
  intros H. apply same_element_iff. split.
  - unfold hash_of. f_equal. now apply identity_hash.
  - unfold identity in H. unfold eq_key. congruence.
Qed.

Lemma set_contains_iff (s : pyset) (x : Finding) :
  set_contains s x = true
  <-> exists y, In y s /\ same_element y x = true.
Proof. unfold set_contains. apply existsb_exists. Qed.

Lemma set_contains_app (s t : pyset) (x : Finding) :
  set_contains (s ++ t)%list x = set_contains s x || set_contains t x.
Proof. unfold set_contains. apply existsb_app. Qed.

Lemma set_add_keeps (s : pyset) (x y : Finding) :
  set_contains s y = true -> set_contains (set_add s x) y = true.
Proof.
  intros H. unfold set_add. destruct (set_contains s x); [assumption|].
  now rewrite set_contains_app, H.
Qed.

Lemma set_add_has (s : pyset) (x : Finding) :
  set_contains (set_add s x) x = true.
Proof.
  unfold set_add. destruct (set_contains s x) eqn:E; [assumption|].
  rewrite set_contains_app. apply orb_true_iff. right.
  cbn. now rewrite same_element_refl.
Qed.

Lemma fold_set_add_keeps (l : list Finding) (s : pyset) (y : Finding) :
  set_contains s y = true ->
  set_contains (fold_left set_add l s) y = true.
Proof.
  revert s; induction l as [|x l IH]; intros s H; [assumption|].
  cbn [fold_left]. apply IH. now apply set_add_keeps.
Qed.

Lemma fold_set_add_has (l : list Finding) (s : pyset) (y : Finding) :
  In y l -> set_contains (fold_left set_add l s) y = true.
Proof.
  revert s; induction l as [|x l IH]; intros s Hin; [destruct Hin|].
  destruct Hin as [<-|H]; cbn [fold_left].
  - apply fold_set_add_keeps, set_add_has.
  - now apply IH.
Qed.

(** Whatever was put into a set is found in it. *)
Lemma set_of_complete (l : list Finding) (y : Finding) :
  In y l -> set_contains (set_of l) y = true.
Proof. apply fold_set_add_has. Qed.

(** What a set contains is the same element as something put into it. *)
Lemma set_contains_of (l : list Finding) (x : Finding) :
  set_contains (set_of l) x = true
  <-> exists y, In y l /\ same_element y x = true.
Proof.
  rewrite set_contains_iff. split.
  - intros [y [Hy Hs]]. exists y. split; [|assumption].
    now apply (set_of_sound (rt := rt)).
  - intros [y [Hy Hs]].
    pose proof (set_of_complete l y Hy) as Hc.
    apply set_contains_iff in Hc as [z [Hz Hzy]].
    exists z. split; [assumption|].
    eapply same_element_trans; eassumption.
Qed.

Lemma enumerate_In_from {A : Type} (l : list A) (a : nat) (i : Z) (x : A) :
  In (i, x) (combine (map Z.of_nat (seq a (List.length l))) l)
  <-> exists n, i = Z.of_nat (a + n) /\ nth_error l n = Some x.
Proof.
  revert a; induction l as [|y l IH]; intros a.
  - cbn. split; [intros [] | intros [[|n] [_ H]]; discriminate].
  - cbn [List.length seq map combine In]. rewrite IH. split.
    + intros [[= <- <-]|[n [-> Hn]]].
      * exists 0%nat. split; [f_equal; lia | reflexivity].
      * exists (S n). split; [f_equal; lia | exact Hn].
    + intros [[|n] [-> Hn]].
      * left. cbn in Hn. injection Hn as ->. f_equal. f_equal. lia.
      * right. exists n. split; [f_equal; lia | exact Hn].
Qed.

(** [enumerate] pairs every member with its position. *)
Lemma enumerate_In {A : Type} (l : list A) (i : Z) (x : A) :
  In (i, x) (enumerate l)
  <-> exists n, i = Z.of_nat n /\ nth_error l n = Some x.
Proof. unfold enumerate. now rewrite enumerate_In_from. Qed.

Lemma positional_In (m : pydict FindingKey (list Finding)) (x : Finding) :
  In x (positional m)
  <-> exists fs n f, In fs (dict_values m) /\ nth_error fs n = Some f
                     /\ x = evolve_index f (Z.of_nat n).
Proof.
  unfold positional. rewrite in_flat_map. split.
  - intros [fs [Hfs Hx]]. apply in_map_iff in Hx as [[i f] [<- Hin]].
    apply enumerate_In in Hin as [n [-> Hn]]. now exists fs, n, f.
  - intros [fs [n [f [Hfs [Hn ->]]]]]. exists fs. split; [assumption|].
    apply in_map_iff. exists (Z.of_nat n, f). split; [reflexivity|].
    apply enumerate_In. now exists n.
Qed.

Lemma map_to_set_positional (m : pydict FindingKey (list Finding)) :
  _map_to_set m = set_of (positional m).
Proof. reflexivity. Qed.

(** X2: every member of the set [_map_to_set] builds is a finding of one
    of the lists with its position as index, and every finding of every
    list, with its position as index, is found in the set. *)
Theorem map_to_set_members (m : pydict FindingKey (list Finding)) :
  (forall x, In x (_map_to_set m) ->
     exists fs n f, In fs (dict_values m) /\ nth_error fs n = Some f
                    /\ x = evolve_index f (Z.of_nat n))
  /\ (forall fs n f, In fs (dict_values m) -> nth_error fs n = Some f ->
        set_contains (_map_to_set m) (evolve_index f (Z.of_nat n)) = true).
Proof.
  rewrite map_to_set_positional. split.
  - intros x Hx. apply positional_In. now apply (set_of_sound (rt := rt)).
  - intros fs n f Hfs Hn. apply set_of_complete, positional_In.
    now exists fs, n, f.
Qed.

Lemma ForallOrdPairs_snoc {A : Type} (R : A -> A -> Prop) (l : list A)
    (x : A) :
  ForallOrdPairs R l -> Forall (fun y => R y x) l ->
  ForallOrdPairs R (l ++ [x])%list.
Proof.
  intros H. induction H as [|a l Ha _ IH]; intros Hx.
  - cbn. constructor; constructor.
  - inversion Hx as [|? ? Hax Hlx]; subst. cbn. constructor.
    + apply Forall_app. split; [assumption | now constructor].
    + now apply IH.
Qed.

Lemma fold_set_add_distinct (l : list Finding) (s : pyset) :
  ForallOrdPairs (fun x y => same_element x y = false) s ->
  ForallOrdPairs (fun x y => same_element x y = false)
    (fold_left set_add l s).
Proof.
  revert s; induction l as [|x l IH]; intros s Hs; [assumption|].
  cbn [fold_left]. apply IH. unfold set_add.
  destruct (set_contains s x) eqn:E; [assumption|].
  apply ForallOrdPairs_snoc; [assumption|].
  apply Forall_forall. intros y Hy.
  apply not_true_is_false. intros Hsame.
  assert (set_contains s x = true)
    by (apply set_contains_iff; now exists y).
  congruence.
Qed.

Lemma set_of_distinct (l : list Finding) (x y : Finding) :
  In x (set_of l) -> In y (set_of l) -> same_element x y = true -> x = y.
Proof.
  intros Hx Hy Hsame.
  assert (Hd : ForallOrdPairs (fun x y => same_element x y = false)
                 (set_of l))
    by (apply fold_set_add_distinct; constructor).
  destruct (ForallOrdPairs_In Hd x y Hx Hy) as [H|[H|H]];
    [assumption | congruence |].
  rewrite same_element_sym in H. congruence.
Qed.

(** X3: when the hash tells the findings at hand apart as the tuple
    (check_id, path, index, syntactic_context) does (two of them, taken
    with their positions, hash alike only if they agree on the tuple),
    the set [_map_to_set] builds holds one member for each such tuple:
    every finding of every list, with its position as index, has a
    member with its tuple, and two members with the same tuple are one
    member. *)
Theorem map_to_set_one_per_identity (m : pydict FindingKey (list Finding)) :
  (forall x y, In x (positional m) -> In y (positional m) ->
     hash_of x = hash_of y -> identity x = identity y) ->
  (forall x, In x (positional m) ->
     exists y, In y (_map_to_set m) /\ identity y = identity x)
  /\ (forall x y, In x (_map_to_set m) -> In y (_map_to_set m) ->
        identity x = identity y -> x = y).
Proof.
  intros Hsep. rewrite map_to_set_positional. split.
  - intros x Hx.
    pose proof (set_of_complete (positional m) x Hx) as Hc.
    apply set_contains_iff in Hc as [y [Hy Hsame]].
    exists y. split; [assumption|].
    apply Hsep; [now apply (set_of_sound (rt := rt)) | assumption|].
    now apply same_element_iff in Hsame as [Hh _].
  - intros x y Hx Hy Hid.
    apply (set_of_distinct (positional m)); [assumption | assumption|].
    now apply identity_same_element.
Qed.

(** X4: the new findings are the members of the current set that no
    baseline finding, taken with its position, has the hash of and is
    equal to. *)
Theorem expensive_new_members (self : FindingSets) (x : Finding) :
  In x (expensive_new self)
  <-> In x (current_set self)
      /\ forall y, In y (positional (baseline_map self)) ->
                   same_element y x = false.
Proof.
  unfold expensive_new, set_difference. rewrite filter_In.
  unfold baseline_set. rewrite map_to_set_positional.
  split; intros [Hin H]; (split; [assumption|]).
  - apply negb_true_iff in H. intros y Hy.
    apply not_true_is_false. intros Hsame.
    assert (set_contains (set_of (positional (baseline_map self))) x = true)
      by (apply set_contains_of; now exists y).
    congruence.
  - apply negb_true_iff, not_true_is_false. intros Hc.
    apply set_contains_of in Hc as [y [Hy Hsame]].
    rewrite (H y Hy) in Hsame. discriminate.
Qed.

Lemma positional_nil (m : pydict FindingKey (list Finding)) :
  Forall (fun fs => fs = []) (dict_values m) -> positional m = [].
Proof.
  unfold positional, dict_values.
  induction m as [|[k fs] m IH]; intros H; [reflexivity|].
  cbn [map snd] in H. inversion H as [|? ? Hfs Hm]; subst.
  cbn. now apply IH.
Qed.

(** X5: when the baseline lists are all empty every member of the
    current set is new, and when the current lists are all empty nothing
    is new, whatever the other map holds. *)
Theorem expensive_new_empty_side (b c : pydict FindingKey (list Finding)) :
  (Forall (fun fs => fs = []) (dict_values b) ->
   expensive_new {| baseline_map := b; current_map := c |} = _map_to_set c)
  /\ (Forall (fun fs => fs = []) (dict_values c) ->
      expensive_new {| baseline_map := b; current_map := c |} = []).
Proof.
  unfold expensive_new, current_set, baseline_set.
  cbn [current_map baseline_map]. rewrite !map_to_set_positional.
  split; intros H; rewrite (positional_nil _ H).
  - unfold set_difference. cbn.
    induction (set_of (positional c)) as [|x s IH]; [reflexivity|].
    cbn. now rewrite IH.
  - reflexivity.
Qed.

Lemma evolve_same_key (f g : Finding) (i : Z) :
  eq_key f = eq_key g ->
  same_element (evolve_index f i) (evolve_index g i) = true.
Proof.
  unfold eq_key. intros [= H1 H2 H3].
  apply identity_same_element. unfold identity, evolve_index, Finding_init.
  cbn. now rewrite H1, H2, H3.
Qed.

(** When every current finding has a baseline finding at the same
    position with the same rule, path and text, nothing is new. *)
Lemma expensive_new_covered (b c : pydict FindingKey (list Finding)) :
  (forall cs, In cs (dict_values c) ->
     exists bs, In bs (dict_values b)
                /\ forall n g, nth_error cs n = Some g ->
                     exists f, nth_error bs n = Some f
                               /\ eq_key f = eq_key g) ->
  expensive_new {| baseline_map := b; current_map := c |} = [].
Proof.
  intros H. apply (filter_none (A := Finding)). intros x Hx.
  apply negb_false_iff.
  unfold current_set in Hx. cbn [current_map] in Hx.
  apply (set_of_sound (rt := rt)), positional_In in Hx
    as [cs [n [g [Hcs [Hn ->]]]]].
  destruct (H cs Hcs) as [bs [Hbs Hpos]].
  destruct (Hpos n g Hn) as [f [Hf Hkey]].
  unfold baseline_set. cbn [baseline_map]. rewrite map_to_set_positional.
  apply set_contains_of. exists (evolve_index f (Z.of_nat n)).
  split; [|now apply evolve_same_key].
  apply positional_In. now exists bs, n, f.
Qed.

(** X6: findings that moved are not new.  When every finding of every
    current list has, at the same position of some baseline list, a
    finding with the same rule, path and text, [expensive_new] is empty,
    whatever lines, columns, messages, severities, metadata and dates
    are. *)
Theorem expensive_new_moved (b c : pydict FindingKey (list Finding)) :
  (forall cs, In cs (dict_values c) ->
     exists bs, In bs (dict_values b)
                /\ forall n g, nth_error cs n = Some g ->
                     exists f, nth_error bs n = Some f
                               /\ eq_key f = eq_key g) ->
  expensive_new {| baseline_map := b; current_map := c |} = [].
Proof. apply expensive_new_covered. Qed.

End SetFacts.

(** ** Repeated findings and the positional policy *)

Section PositionalFacts.

Context {rt : Runtime}.

Local Open Scope list_scope.

Lemma NoDup_app_disjoint {A : Type} (l1 l2 : list A) (a : A) :
  NoDup (l1 ++ l2) -> In a l1 -> ~ In a l2.
Proof.
  induction l1 as [|x l1 IH]; intros H Hin; [destruct Hin|].
  cbn [app] in H. inversion H as [|? ? Hx Hrest]; subst.
  destruct Hin as [->|Hin]; [|now apply IH].
  intros Ha. apply Hx. apply in_or_app. now right.
Qed.

Lemma hashes_disjoint (l1 l2 : list Finding) (x y : Finding) :
  NoDup (map hash_of (l1 ++ l2)) -> In y l1 -> In x l2 ->
  hash_of y <> hash_of x.
Proof.
  rewrite map_app. intros H Hy Hx Heq.
  apply (NoDup_app_disjoint _ _ (hash_of y) H).
  - now apply in_map.
  - rewrite Heq. now apply in_map.
Qed.

Lemma separated_nil_NoDup (hs : list Z) :
  separated [] hs = true -> NoDup hs.
Proof.
  induction hs as [|h hs IH]; intros H; [constructor|].
  cbn [separated existsb negb andb] in H.
  apply andb_true_iff in H as [Hh Hs]. constructor; [|now apply IH].
  intros Hin. apply negb_true_iff in Hh.
  assert (existsb (Z.eqb h) hs = true)
    by (apply existsb_exists; exists h; split; [assumption | apply Z.eqb_refl]).
  congruence.
Qed.

Lemma fold_set_add_fresh (l : list Finding) (s : pyset) :
  NoDup (map hash_of (s ++ l)) ->
  fold_left set_add l s = s ++ l.
Proof.
  revert s; induction l as [|x l IH]; intros s H.
  - now rewrite app_nil_r.
  - cbn [fold_left].
    assert (Hc : set_contains s x = false).
    { apply set_contains_fresh. intros y Hy.
      apply (hashes_disjoint s (x :: l)); [assumption | assumption | now left]. }
    unfold set_add at 2. rewrite Hc.
    rewrite IH; rewrite <- app_assoc; [reflexivity | exact H].
Qed.

(** With hashes that are pairwise distinct, a set is the list it was
    made from. *)
Lemma set_of_fresh (l : list Finding) :
  NoDup (map hash_of l) -> set_of l = l.
Proof. intros H. unfold set_of. now rewrite fold_set_add_fresh. Qed.

Lemma filter_all {A : Type} (p : A -> bool) (l : list A) :
  (forall x, In x l -> p x = true) -> filter p l = l.
Proof.
  induction l as [|a l IH]; intros H; [reflexivity|].
  cbn [filter]. rewrite (H a (or_introl eq_refl)). f_equal.
  apply IH. intros x Hx. apply H. now right.
Qed.

Lemma set_difference_suffix (l1 l2 : list Finding) :
  NoDup (map hash_of (l1 ++ l2)) ->
  set_difference (l1 ++ l2) l1 = l2.
Proof.
  intros H. unfold set_difference. rewrite filter_app.
  fold (set_difference l1 l1). rewrite set_difference_self. cbn [app].
  apply filter_all. intros x Hx. apply negb_true_iff.
  apply set_contains_fresh. intros y Hy.
  now apply (hashes_disjoint l1 l2).
Qed.

Lemma enumerate_repeat (A : Finding) (n a : nat) :
  map (fun p => evolve_index (snd p) (fst p))
      (combine (map Z.of_nat (seq a n)) (repeat A n))
  = map (fun i => evolve_index A (Z.of_nat i)) (seq a n).
Proof.
  revert a; induction n as [|n IH]; intros a; [reflexivity|].
  cbn [seq map repeat combine fst snd]. now rewrite IH.
Qed.

Lemma positional_repeat (K : FindingKey) (A : Finding) (n : nat) :
  positional [(K, repeat A n)]
  = map (fun i => evolve_index A (Z.of_nat i)) (seq 0 n).
Proof.
  unfold positional, enumerate. cbn [dict_values map snd flat_map].
  rewrite app_nil_r, repeat_length. apply enumerate_repeat.
Qed.

(** X7: the positional policy.  With [m] copies of a finding in the
    baseline list and [n >= m] copies in the current list under one key,
    and hashes that tell the [n] occurrences apart, the new findings are
    the occurrences [m] to [n - 1], in this order. *)
Theorem expensive_new_repeated (K : FindingKey) (A : Finding) (m n : nat) :
  (m <= n)%nat ->
  separated []
    (map (fun i => hash_of (evolve_index A (Z.of_nat i))) (seq 0 n)) = true ->
  expensive_new {| baseline_map := [(K, repeat A m)];
                   current_map := [(K, repeat A n)] |}
  = map (fun i => evolve_index A (Z.of_nat i)) (seq m (n - m)).
Proof.
  intros Hmn Hsep. apply separated_nil_NoDup in Hsep.
  unfold expensive_new, current_set, baseline_set.
  cbn [current_map baseline_map].
  rewrite !map_to_set_positional, !positional_repeat.
  set (ev := fun i => evolve_index A (Z.of_nat i)) in *.
  assert (Hn : seq 0 n = seq 0 m ++ seq m (n - m)).
  { rewrite <- seq_app. f_equal. lia. }
  assert (Hh : NoDup (map hash_of (map ev (seq 0 m)
                                   ++ map ev (seq m (n - m))))).
  { rewrite <- map_app, <- Hn, map_map. exact Hsep. }
  rewrite Hn, map_app, (set_of_fresh _ Hh).
  rewrite set_of_fresh.
  - now apply set_difference_suffix.
  - rewrite map_app in Hh. now apply NoDup_app_remove_r in Hh.
Qed.

End PositionalFacts.

(** ** Dictionaries *)

Module DictFacts.

Lemma dict_get_set_same {V : Type} (d : pydict string V) (k : string)
    (v : V) :
  dict_get (dict_set d k v) k = Some v.
Proof.
  induction d as [|[k' v'] d IH]; cbn.
  - now rewrite String.eqb_refl.
  - destruct (String.eqb k' k) eqn:E; cbn; rewrite E; [reflexivity | exact IH].
Qed.

Lemma dict_get_set_other {V : Type} (d : pydict string V) (k k' : string)
    (v : V) :
  k' <> k -> dict_get (dict_set d k v) k' = dict_get d k'.
Proof.
  intros Hne. induction d as [|[k0 v0] d IH]; cbn.
  - apply String.eqb_neq in Hne. rewrite String.eqb_sym in Hne.
    now rewrite Hne.
  - destruct (String.eqb k0 k) eqn:E; cbn.
    + apply String.eqb_eq in E; subst k0.
      apply String.eqb_neq in Hne. rewrite String.eqb_sym in Hne.
      now rewrite Hne.
    + now rewrite IH.
Qed.

Lemma dict_get_absent {V : Type} (d : pydict string V) (k : string) :
  ~ In k (map fst d) -> dict_get d k = None.
Proof.
  induction d as [|[k0 v0] d IH]; intros H; [reflexivity|].
  cbn in *. destruct (String.eqb k0 k) eqn:E.
  - apply String.eqb_eq in E. tauto.
  - apply IH. tauto.
Qed.

Lemma dict_get_In {V : Type} (d : pydict string V) (k : string) (v : V) :
  dict_get d k = Some v -> In (k, v) d.
Proof.
  induction d as [|[k0 v0] d IH]; [discriminate|].
  cbn. destruct (String.eqb k0 k) eqn:E.
  - apply String.eqb_eq in E. intros [= ->]. left. now subst.
  - intros H. right. now apply IH.
Qed.

(** Looking a key up after dropping entries by value, in a dictionary
    (keys all different). *)
Lemma dict_get_filter {V : Type} (q : V -> bool) (d : pydict string V)
    (k : string) :
  NoDup (map fst d) ->
  dict_get (filter (fun kv => q (snd kv)) d) k
  = match dict_get d k with
    | Some v => if q v then Some v else None
    | None => None
    end.
Proof.
  induction d as [|[k0 v0] d IH]; intros H; [reflexivity|].
  cbn [map fst] in H. inversion H as [|? ? Hk0 Hd]; subst.
  cbn [filter snd dict_get].
  destruct (String.eqb k0 k) eqn:E.
  - apply String.eqb_eq in E; subst k0.
    destruct (q v0); cbn [dict_get].
    + now rewrite String.eqb_refl.
    + rewrite (IH Hd), (dict_get_absent d k Hk0). reflexivity.
  - destruct (q v0); cbn [dict_get]; [rewrite E|]; now apply IH.
Qed.

End DictFacts.

(** ** Bytes and hexadecimal digits *)

Module PyIntFacts.
Import PyInt PyIntInv.

Lemma small_cases (d : Z) :
  0 <= d < 16 -> exists n, (n < 16)%nat /\ d = Z.of_nat n.
Proof. intros H. exists (Z.to_nat d). lia. Qed.

Lemma hexvalue_hexdigit (d : Z) :
  0 <= d < 16 -> hexvalue (hexdigit d) = d.
Proof.
  intros H. destruct (small_cases d H) as [n [Hn ->]].
  do 16 (destruct n as [|n]; [reflexivity|]). lia.
Qed.

Lemma is_hexdigit_hexdigit (d : Z) :
  0 <= d < 16 -> is_hexdigit (hexdigit d) = true.
Proof.
  intros H. destruct (small_cases d H) as [n [Hn ->]].
  do 16 (destruct n as [|n]; [reflexivity|]). lia.
Qed.

Lemma digits_big_bytes (n : nat) (x : Z) : Forall is_byte (digits_big n x).
Proof.
  revert x; induction n as [|n IH]; intros x; [constructor|].
  cbn [digits_big]. apply Forall_app. split; [apply IH|].
  constructor; [|constructor]. unfold is_byte.
  apply Z.mod_pos_bound. lia.
Qed.

Lemma unhexlify_hexlify (bs : list Z) :
  Forall is_byte bs -> unhexlify (hexlify bs) = bs.
Proof.
  induction 1 as [|b bs Hb _ IH]; [reflexivity|].
  cbn [hexlify unhexlify]. rewrite IH. f_equal.
  unfold is_byte in Hb.
  rewrite !hexvalue_hexdigit.
  - pose proof (Z.div_mod b 16). lia.
  - apply Z.mod_pos_bound. lia.
  - split; [apply Z.div_pos; lia | apply Z.div_lt_upper_bound; lia].
Qed.

Lemma hexlify_hexdigits (bs : list Z) :
  Forall is_byte bs -> PyStr.all_chars is_hexdigit (hexlify bs) = true.
Proof.
  induction 1 as [|b bs Hb _ IH]; [reflexivity|].
  cbn [hexlify PyStr.all_chars]. unfold is_byte in Hb.
  rewrite IH, !is_hexdigit_hexdigit; [reflexivity| |].
  - apply Z.mod_pos_bound. lia.
  - split; [apply Z.div_pos; lia | apply Z.div_lt_upper_bound; lia].
Qed.

Lemma from_bytes_snoc (bs : list Z) (b : Z) :
  from_bytes (bs ++ [b]) = 256 * from_bytes bs + b.
Proof. unfold from_bytes. now rewrite fold_left_app. Qed.

Lemma from_bytes_digits_big (n : nat) (x : Z) :
  0 <= x < 256 ^ Z.of_nat n -> from_bytes (digits_big n x) = x.
Proof.
  revert x; induction n as [|n IH]; intros x H.
  - cbn in *. unfold from_bytes. cbn. lia.
  - cbn [digits_big]. rewrite from_bytes_snoc, IH.
    + pose proof (Z.div_mod x 256). lia.
    + rewrite Nat2Z.inj_succ, Z.pow_succ_r in H by lia.
      split; [apply Z.div_pos; lia | apply Z.div_lt_upper_bound; lia].
Qed.

Lemma to_bytes_ok (x : Z) (n : nat) (bs : list Z) :
  to_bytes x n = Ok bs ->
  0 <= x < 256 ^ Z.of_nat n /\ bs = digits_big n x.
Proof.
  unfold to_bytes.
  destruct (Z.ltb_spec x 0); [discriminate|].
  destruct (Z.leb_spec (256 ^ Z.of_nat n) x); [discriminate|].
  cbn. intros [= <-]. split; [lia | reflexivity].
Qed.

Lemma to_bytes_err (x : Z) (n : nat) (e : exn) :
  to_bytes x n = Err e ->
  e = OverflowError /\ ~ (0 <= x < 256 ^ Z.of_nat n).
Proof.
  unfold to_bytes.
  destruct (Z.ltb_spec x 0); cbn.
  - intros [= <-]. split; [reflexivity | lia].
  - destruct (Z.leb_spec (256 ^ Z.of_nat n) x); cbn; [|discriminate].
    intros [= <-]. split; [reflexivity | lia].
Qed.

End PyIntFacts.

(** ** MurmurHash3 *)

Module Murmur3Facts.
Import Murmur3.

Lemma mask64_ones : mask64 = Z.ones 64.
Proof. reflexivity. Qed.

Lemma land_mask64 (x : Z) : 0 <= Z.land x mask64 < 2 ^ 64.
Proof.
  rewrite mask64_ones, Z.land_ones by lia.
  apply Z.mod_pos_bound. lia.
Qed.

(** Two words of 64 bits put side by side make a number of 128 bits. *)
Lemma lor_words (hi lo : Z) :
  0 <= hi < 2 ^ 64 -> 0 <= lo < 2 ^ 64 ->
  0 <= Z.lor (Z.shiftl hi 64) lo < 2 ^ 128.
Proof.
  intros Hhi Hlo. rewrite Z.shiftl_mul_pow2 by lia.
  split.
  - apply Z.lor_nonneg. lia.
  - pose proof (Z.add_lor_land (hi * 2 ^ 64) lo) as Hadd.
    assert (0 <= Z.land (hi * 2 ^ 64) lo) by (apply Z.land_nonneg; lia).
    lia.
Qed.

(** The digest is an unsigned number of 128 bits, whatever the key and
    the seed. *)
Lemma hash128_bytes_range (key : list Z) (seed : Z) :
  0 <= hash128_bytes key seed < 2 ^ 128.
Proof.
  unfold hash128_bytes.
  destruct (blocks _ key seed seed) as [[h1 h2] tail].
  cbv zeta. apply lor_words; apply land_mask64.
Qed.

Lemma hash128_range (key : string) : 0 <= hash128 key < 2 ^ 128.
Proof. apply hash128_bytes_range. Qed.

End Murmur3Facts.

(** ** The syntactic identifier *)

Section IdentifierFacts.

Context {rt : Runtime}.

(** C9: with [pymmh3.hash128] the MurmurHash3 above, the identifier of
    a finding is the digest, under the fixed seed 0, of the bytes of
    [str((check_id, path, index, syntactic_context))] and of nothing
    else; it is an unsigned number of 128 bits.  Two findings that agree
    on the four attributes, whatever their other attributes, have the
    same identifier integer and the same identifier string; the string
    always exists, has 32 characters, all of them hexadecimal digits,
    and read in base 16 it is the integer. *)
Theorem syntactic_identifier_deterministic (f g : Finding) :
  hash128 = Murmur3.hash128 ->
  identity f = identity g ->
  syntactic_identifier_int f
  = Murmur3.hash128_bytes
      (Murmur3.bytes_of_string
         (str_tuple (check_id f) (path f) (index f) (syntactic_context f)))
      0
  /\ 0 <= syntactic_identifier_int f < 2 ^ 128
  /\ syntactic_identifier_int f = syntactic_identifier_int g
  /\ exists s, syntactic_identifier_str f = Ok s
               /\ syntactic_identifier_str g = Ok s
               /\ String.length s = 32%nat
               /\ PyStr.all_chars PyIntInv.is_hexdigit s = true
               /\ PyIntInv.from_bytes (PyIntInv.unhexlify s)
                  = syntactic_identifier_int f.
Proof.
  intros Hmm Hid.
  assert (Hint : syntactic_identifier_int f
                 = Murmur3.hash128
                     (str_tuple (check_id f) (path f) (index f)
                        (syntactic_context f))).
  { unfold syntactic_identifier_int. now rewrite Hmm. }
  assert (Hr : 0 <= syntactic_identifier_int f < 2 ^ 128).
  { rewrite Hint. apply Murmur3Facts.hash128_range. }
  assert (Hfg : syntactic_identifier_int f = syntactic_identifier_int g).
  { unfold identity in Hid. injection Hid as H1 H2 H3 H4.
    unfold syntactic_identifier_int. now rewrite H1, H2, H3, H4. }
  split; [exact Hint|]. split; [exact Hr|]. split; [exact Hfg|].
  exists (PyInt.hexlify (PyInt.digits_big 16 (syntactic_identifier_int f))).
  assert (Hb : PyInt.to_bytes (syntactic_identifier_int f) 16
               = Ok (PyInt.digits_big 16 (syntactic_identifier_int f))).
  { apply to_bytes_in_range.
    change (256 ^ Z.of_nat 16) with (2 ^ 128). exact Hr. }
  split; [unfold syntactic_identifier_str; now rewrite Hb|].
  split; [unfold syntactic_identifier_str; now rewrite <- Hfg, Hb|].
  split; [now rewrite hexlify_length, digits_big_length|].
  split.
  - apply PyIntFacts.hexlify_hexdigits, PyIntFacts.digits_big_bytes.
  - rewrite PyIntFacts.unhexlify_hexlify
      by apply PyIntFacts.digits_big_bytes.
    apply PyIntFacts.from_bytes_digits_big.
    change (256 ^ Z.of_nat 16) with (2 ^ 128). exact Hr.
Qed.

End IdentifierFacts.

Lemma syntactic_identifier_deterministic_witness :
  0 <= syntactic_identifier_int (rt := Sample.runtime) Sample.finding_A
    < 2 ^ 128
  /\ syntactic_identifier_int (rt := Sample.runtime) Sample.finding_A
     = syntactic_identifier_int (rt := Sample.runtime) Sample.finding_A_moved.
Proof.
  pose proof (syntactic_identifier_deterministic (rt := Sample.runtime)
                Sample.finding_A Sample.finding_A_moved eq_refl eq_refl)
    as H.
  exact (conj (proj1 (proj2 H)) (proj1 (proj2 (proj2 H)))).
Defined.

(** ** Substrings *)

Module ContainsFacts.
Import PyStr PyStrFacts.

Lemma prefix_append (a post : string) : String.prefix a (a ++ post) = true.
Proof.
  induction a as [|c a IH]; [apply prefix_nil_l|].
  cbn [String.append]. now rewrite prefix_cons, Ascii.eqb_refl.
Qed.

Lemma prefix_iff (a b : string) :
  String.prefix a b = true <-> exists post, b = a ++ post.
Proof.
  split.
  - intros H. eexists. now apply TextwrapFacts.prefix_split.
  - intros [post ->]. apply prefix_append.
Qed.

(** [contains] is the substring test. *)
Lemma contains_iff (needle s : string) :
  contains needle s = true <-> exists pre post, s = pre ++ needle ++ post.
Proof.
  induction s as [|c s IH].
  - cbn [contains]. rewrite orb_false_r, prefix_iff. split.
    + intros [post H]. now exists EmptyString, post.
    + intros [[|x pre] [post H]]; [now exists post | discriminate].
  - cbn [contains]. rewrite orb_true_iff, prefix_iff, IH. split.
    + intros [[post H]|[pre [post H]]].
      * now exists EmptyString, post.
      * exists (String c pre), post. cbn. now rewrite H.
    + intros [[|x pre] [post H]].
      * left. now exists post.
      * right. cbn in H. injection H as _ H. now exists pre, post.
Qed.

End ContainsFacts.

(** ** More on single findings *)

Section FindingFacts2.

Context {rt : Runtime}.

(** X8: the identifier string reads back as the identifier: it is made
    of the digits 0-9 and a-f, and taken as a number in base 16 it is
    [syntactic_identifier_int]; so two findings with the same string
    have the same integer. *)
Theorem syntactic_identifier_str_decodes (f : Finding) (s : string) :
  syntactic_identifier_str f = Ok s ->
  PyIntInv.from_bytes (PyIntInv.unhexlify s) = syntactic_identifier_int f
  /\ PyStr.all_chars PyIntInv.is_hexdigit s = true.
Proof.
  unfold syntactic_identifier_str.
  destruct (PyInt.to_bytes (syntactic_identifier_int f) 16) as [bs|e] eqn:E;
    [|discriminate].
  intros [= <-]. apply PyIntFacts.to_bytes_ok in E as [Hr ->].
  rewrite PyIntFacts.unhexlify_hexlify by apply PyIntFacts.digits_big_bytes.
  split.
  - now apply PyIntFacts.from_bytes_digits_big.
  - apply PyIntFacts.hexlify_hexdigits, PyIntFacts.digits_big_bytes.
Qed.

(** X9: [syntactic_identifier_str] returns a string exactly when the
    hash is an unsigned number of 128 bits; otherwise [int.to_bytes]
    raises [OverflowError], and nothing else is ever raised. *)
Theorem syntactic_identifier_str_overflow (f : Finding) :
  match syntactic_identifier_str f with
  | Ok _ => 0 <= syntactic_identifier_int f < 2 ^ 128
  | Err e => e = OverflowError
             /\ ~ (0 <= syntactic_identifier_int f < 2 ^ 128)
  end.
Proof.
  unfold syntactic_identifier_str.
  destruct (PyInt.to_bytes (syntactic_identifier_int f) 16) as [bs|e] eqn:E.
  - now apply PyIntFacts.to_bytes_ok in E as [Hr _].
  - now apply PyIntFacts.to_bytes_err in E.
Qed.

Lemma syntactic_identifier_str_ok (f : Finding) (s : string) :
  syntactic_identifier_str f = Ok s ->
  0 <= syntactic_identifier_int f < 2 ^ 128.
Proof.
  unfold syntactic_identifier_str.
  destruct (PyInt.to_bytes (syntactic_identifier_int f) 16) as [bs|e] eqn:E;
    [|discriminate].
  intros _. now apply PyIntFacts.to_bytes_ok in E as [Hr _].
Qed.

(** X10: [to_dict] returns a dictionary exactly when the finding has a
    commit date and its identifier is an unsigned number of 128 bits;
    in every other case it raises. *)
Theorem to_dict_succeeds_iff (f : Finding) :
  (exists d, to_dict f = Ok d)
  <-> commit_date f <> None
      /\ 0 <= syntactic_identifier_int f < 2 ^ 128.
Proof.
  split.
  - intros [d Hd]. split.
    + intros Hnone.
      destruct (to_dict_no_commit_date f Hnone) as [e He]. congruence.
    + unfold to_dict in Hd.
      destruct (syntactic_identifier_str f) as [sid|e] eqn:E;
        [|discriminate].
      now apply syntactic_identifier_str_ok in E.
  - intros [Hd Hr]. destruct (commit_date f) as [dt|] eqn:E; [|congruence].
    destruct (to_dict_commit_date f dt E Hr) as [d [sid [H _]]].
    now exists d.
Qed.

Lemma asdict_keys (f : Finding) : NoDup (map fst (asdict f)).
Proof.
  unfold asdict. cbn [map fst].
  repeat (constructor; [cbn; intuition discriminate|]). constructor.
Qed.

(** X11: the dictionary [to_dict] returns holds every attribute that is
    not [None] under its name and with its value, the date excepted,
    which is there as text; it holds the identifier string under
    "syntactic_id", and no other key. *)
Theorem to_dict_entries (f : Finding) (d : pydict string attr_value) :
  to_dict f = Ok d ->
  (forall k v, dict_get (asdict f) k = Some v -> k <> "commit_date" ->
     dict_get d k = if is_None v then None else Some v)
  /\ (exists dt, commit_date f = Some dt
        /\ dict_get d "commit_date" = Some (VStr (isoformat dt)))
  /\ (exists sid, syntactic_identifier_str f = Ok sid
        /\ dict_get d "syntactic_id" = Some (VStr sid))
  /\ (forall k, dict_get (asdict f) k = None -> k <> "syntactic_id" ->
        dict_get d k = None).
Proof.
  unfold to_dict. cbv zeta.
  destruct (syntactic_identifier_str f) as [sid|e] eqn:Esid; [|discriminate].
  set (d0 := filter (fun kv => negb (is_None (snd kv))) (asdict f)).
  assert (Hd0 : forall k,
            dict_get d0 k = match dict_get (asdict f) k with
                            | Some v => if negb (is_None v) then Some v
                                        else None
                            | None => None
                            end).
  { intros k. unfold d0.
    apply (DictFacts.dict_get_filter (fun v => negb (is_None v))).
    apply asdict_keys. }
  assert (Hsid : dict_get (asdict f) "syntactic_id" = None)
    by reflexivity.
  assert (Hcd : dict_get (asdict f) "commit_date"
                = Some (of_option VDatetime (commit_date f)))
    by reflexivity.
  set (d1 := dict_set d0 "syntactic_id" (VStr sid)).
  assert (Hd1 : forall k, k <> "syntactic_id" ->
            dict_get d1 k = dict_get d0 k).
  { intros k Hk. now apply DictFacts.dict_get_set_other. }
  rewrite (Hd1 "commit_date") by discriminate.
  rewrite Hd0, Hcd.
  destruct (commit_date f) as [dt|]; cbn [of_option is_None negb];
    [|discriminate].
  intros Hd.
  assert (Hdd : dict_set d1 "commit_date" (VStr (isoformat dt)) = d)
    by congruence.
  clear Hd. subst d.
  set (iso := VStr (isoformat dt)).
  assert (Hd2 : forall k, k <> "commit_date" ->
            dict_get (dict_set d1 "commit_date" iso) k = dict_get d1 k).
  { intros k Hk. now apply DictFacts.dict_get_set_other. }
  split; [|split; [|split]].
  - intros k v Hk Hne. rewrite (Hd2 k Hne).
    destruct (String.eqb_spec k "syntactic_id") as [->|Hks]; [congruence|].
    rewrite (Hd1 k Hks), Hd0, Hk. now destruct (is_None v).
  - exists dt. split; [reflexivity|]. apply DictFacts.dict_get_set_same.
  - exists sid. split; [reflexivity|].
    rewrite Hd2 by discriminate. apply DictFacts.dict_get_set_same.
  - intros k Hk Hks.
    destruct (String.eqb_spec k "commit_date") as [->|Hkc]; [congruence|].
    now rewrite (Hd2 k Hkc), (Hd1 k Hks), Hd0, Hk.
Qed.

(** X12: when the action value is a string and not a list, "block" is
    looked for inside it: [is_blocking] returns true exactly when the
    string has "block" as a substring. *)
Theorem is_blocking_string_value (f : Finding) (s : string) :
  dict_get (metadata f) "dev.semgrep.actions" = Some (PStr s) ->
  (exists b, is_blocking f = Ok b)
  /\ (is_blocking f = Ok true
      <-> exists pre post, s = pre ++ "block" ++ post).
Proof.
  intros H. unfold is_blocking. rewrite H. cbn [py_in].
  split; [eexists; reflexivity|].
  rewrite <- ContainsFacts.contains_iff. split.
  - now intros [= ->].
  - now intros ->.
Qed.

(** X13: a second occurrence of a flagged snippet that differs from a
    baseline occurrence only by a uniform margin is not new: its key
    differs, its finding is the same element. *)
Theorem indented_twin_not_new
    (r : SemgrepResult) (w text' : string) (d : option datetime) :
  PyStr.all_chars PyStr.is_indent_char w = true ->
  Textwrap.indented_by w (lines (extra r)) text' ->
  text' <> lines (extra r) ->
  let k1 := fst (from_semgrep_result r d) in
  let f := snd (from_semgrep_result r d) in
  let k2 := fst (from_semgrep_result (with_lines r text') d) in
  let g := snd (from_semgrep_result (with_lines r text') d) in
  k1 <> k2
  /\ expensive_new {| baseline_map := [(k1, [f])];
                      current_map := [(k1, [f]); (k2, [g])] |} = [].
Proof.
  intros Hw Hind Hne k1 f k2 g. split.
  - unfold k1, k2, from_semgrep_result, with_lines. cbn. congruence.
  - assert (Hfg : g = f).
    { unfold f, g, from_semgrep_result, with_lines, Finding_init. cbn.
      now rewrite (TextwrapFacts.dedent_indented w (lines (extra r)) text'). }
    rewrite Hfg. apply expensive_new_covered.
    intros cs Hcs. exists [f]. split; [now left|].
    intros n g' Hn. exists g'. split; [|reflexivity].
    cbn in Hcs. destruct Hcs as [<-|[<-|[]]]; exact Hn.
Qed.

End FindingFacts2.

(** ** More on [fix_head_for_github] *)

Module GitHeadErrors.
Import GitHead GitHeadFacts.

Section Facts.

Context {env : Git}.

(** X14: an unknown baseline ref is fatal.  When [git rev-parse] of the
    baseline raises, the function raises that error; the block is not
    run and no other command, no checkout in particular, is issued,
    whatever head ref was given. *)
Theorem baseline_failure_is_fatal {A : Type}
    (b : string) (head_ref : option string)
    (body : option string -> M A) (w : world) (e : exn) (st : git_state) :
  get_git_repo (state w) <> None ->
  b <> EmptyString ->
  git_exec ["rev-parse"; b] (state w) = (Err e, st) ->
  fix_head_for_github (Some b) head_ref body w
  = (Err e, {| state := st; trace := trace w ++ [GitCmd ["rev-parse"; b]] |}).
Proof.
  intros Hrepo Hb Hgit.
  rewrite fix_head_for_github_steps by assumption.
  unfold setup, resolve_base_ref, truthy.
  apply String.eqb_neq in Hb. rewrite Hb. cbn [negb].
  unfold bind. rewrite git_run, Hgit. reflexivity.
Qed.

(** X15: when the checkout of the head ref raises, the function raises
    that error at once: the block is not run, and nothing is checked
    out in return, the failed checkout being the last command. *)
Theorem head_checkout_failure {A : Type}
    (base_commit_ref : option string) (h : string)
    (body : option string -> M A) (w w0 w1 : world)
    (b : option string) (s : string) (e : exn) (st : git_state) :
  get_git_repo (state w) <> None ->
  h <> EmptyString ->
  resolve_base_ref base_commit_ref w = (Ok b, w0) ->
  current_position w0 = (Ok s, w1) ->
  git_exec ["checkout"; h] (state w1) = (Err e, st) ->
  fix_head_for_github base_commit_ref (Some h) body w
  = (Err e,
     {| state := st;
        trace := trace w1
                 ++ [Echo ("| not on head ref " ++ h
                           ++ "; checking that out now...");
                     GitCmd ["checkout"; h]] |}).
Proof.
  intros Hrepo Hh Hres Hpos Hgit.
  rewrite fix_head_for_github_steps by assumption.
  unfold setup, checkout_head, truthy.
  apply String.eqb_neq in Hh. rewrite Hh. cbn [negb].
  unfold bind at 1. rewrite Hres.
  unfold bind at 1 2. rewrite Hpos.
  unfold bind at 1. rewrite echo_run.
  unfold bind at 1. rewrite git_run. cbn [state trace].
  rewrite Hgit. cbn [fst snd]. now rewrite <- app_assoc.
Qed.

Lemma try_finally_ok {A : Type} (m : M A) (cleanup : M unit)
    (w w' : world) (a : A) :
  try_finally m cleanup w = (Ok a, w') -> exists w1, m w = (Ok a, w1).
Proof.
  unfold try_finally. destruct (m w) as [r w1].
  destruct (cleanup w1) as [[[]|e] w2]; [|discriminate].
  intros [= -> _]. now exists w1.
Qed.

Lemma setup_base_ref (base_commit_ref head_ref : option string)
    (w w1 : world) (p : option string * option string) :
  setup base_commit_ref head_ref w = (Ok p, w1) ->
  exists w0, resolve_base_ref base_commit_ref w = (Ok (fst p), w0).
Proof.
  unfold setup, bind at 1.
  destruct (resolve_base_ref base_commit_ref w) as [[b|e] w0];
    [|discriminate].
  unfold bind. destruct (checkout_head head_ref w0) as [[s|e] w2];
    [|discriminate].
  cbn. intros [= <- _]. now exists w0.
Qed.

(** X16: what the block is given.  It receives the requested baseline
    as it is when that is [None] or empty, or when there is no
    repository; otherwise it receives the output of [git rev-parse] on
    the baseline, right-stripped, as obtained in the state the function
    was entered in, before any checkout. *)
Theorem yielded_base_ref (base_commit_ref head_ref : option string)
    (w w' : world) (b' : option string) :
  fix_head_for_github base_commit_ref head_ref (fun b => ret b) w
  = (Ok b', w') ->
  (truthy base_commit_ref = false -> b' = base_commit_ref)
  /\ (get_git_repo (state w) = None -> b' = base_commit_ref)
  /\ (truthy base_commit_ref = true ->
      get_git_repo (state w) <> None ->
      exists b out st,
        base_commit_ref = Some b
        /\ git_exec ["rev-parse"; b] (state w) = (Ok out, st)
        /\ b' = Some (rstrip out)).
Proof.
  intros Hrun.
  destruct (get_git_repo (state w)) as [repo|] eqn:Erepo.
  - rewrite fix_head_for_github_steps in Hrun by congruence.
    destruct (setup base_commit_ref head_ref w) as [[p|e] w1] eqn:Esetup;
      [|discriminate].
    apply try_finally_ok in Hrun as [w2 Hscope].
    assert (Hb : fst p = b').
    { unfold bind, ret in Hscope.
      destruct (log_commits (fst p) w1) as [[[]|e] w3]; congruence. }
    apply setup_base_ref in Esetup as [w0 Hres]. rewrite Hb in Hres.
    unfold resolve_base_ref in Hres.
    split; [|split].
    + intros Hf. destruct base_commit_ref as [b|]; [|now injection Hres].
      rewrite Hf in Hres. now injection Hres.
    + discriminate.
    + intros Ht _. destruct base_commit_ref as [b|]; [|discriminate].
      rewrite Ht in Hres. unfold bind in Hres. rewrite git_run in Hres.
      destruct (git_exec ["rev-parse"; b] (state w)) as [[out|e] st] eqn:Eg;
        cbn [fst snd] in Hres; [|discriminate].
      injection Hres as <- _. now exists b, out, st.
  - rewrite fix_head_for_github_no_repo in Hrun by assumption.
    injection Hrun as <- _.
    split; [reflexivity|]. split; [reflexivity|]. congruence.
Qed.

End Facts.

End GitHeadErrors.

(** ** Lock files *)

Module LockfilesFacts.
Import Lockfiles.

Local Open Scope list_scope.

Lemma filter_or_perm {A : Type} (p q : A -> bool) (l : list A) :
  (forall x, In x l -> p x && q x = false) ->
  Permutation (filter p l ++ filter q l) (filter (fun x => p x || q x) l).
Proof.
  induction l as [|a l IH]; intros H; [constructor|].
  assert (IH' : Permutation (filter p l ++ filter q l)
                            (filter (fun x => p x || q x) l))
    by (apply IH; intros x Hx; apply H; now right).
  pose proof (H a (or_introl eq_refl)) as Ha.
  cbn [filter]. destruct (p a), (q a); try discriminate; cbn [orb app].
  - now constructor.
  - symmetry. apply Permutation_cons_app. now symmetry.
  - exact IH'.
Qed.

Section Files.

Context {ops : PathOps}.

Lemma matches_perm (paths : list Path) (targets : list string) :
  NoDup (map lower targets) ->
  Permutation
    (flat_map
       (fun target_file =>
          filter (fun path =>
                    String.eqb (lower (name path)) (lower target_file))
                 paths) targets)
    (filter (fun p =>
               existsb (fun target_file =>
                          String.eqb (lower (name p)) (lower target_file))
                       targets) paths).
Proof.
  induction targets as [|t ts IH]; intros Hnd.
  - cbn. induction paths as [|p ps IHp]; [constructor | exact IHp].
  - cbn [map] in Hnd. inversion Hnd as [|? ? Ht Hts]; subst.
    cbn [flat_map existsb].
    etransitivity; [apply Permutation_app_head, IH, Hts|].
    apply filter_or_perm. intros p _.
    destruct (String.eqb_spec (lower (name p)) (lower t)) as [E|];
      [|reflexivity].
    cbn [andb]. apply not_true_is_false. intros Hex.
    apply existsb_exists in Hex as [t' [Ht' E']].
    apply String.eqb_eq in E'. apply Ht. rewrite <- E, E'.
    now apply in_map.
Qed.

(** X17: a path is yielded exactly when it is among [paths] and its
    name, lowercased, is one of the lock file names, lowercased. *)
Theorem get_files_In (paths : list Path) (p : Path) :
  In p (get_files_matching_name_insensitive_case paths)
  <-> In p paths /\ is_target p = true.
Proof.
  unfold get_files_matching_name_insensitive_case, is_target.
  rewrite in_flat_map, existsb_exists. split.
  - intros [t [Ht Hp]]. apply filter_In in Hp as [Hp E]. split; eauto.
  - intros [Hp [t [Ht E]]]. exists t. split; [assumption|].
    apply filter_In. now split.
Qed.

(** X18: when lowercasing keeps the three lock file names apart, the
    paths yielded are the matching members of [paths], each as often as
    it occurs there: none is dropped, none is yielded twice. *)
Theorem get_files_permutation (paths : list Path) :
  NoDup (map lower TARGET_FILENAMES) ->
  Permutation (get_files_matching_name_insensitive_case paths)
              (filter is_target paths).
Proof. apply matches_perm. Qed.

End Files.

Section CompareFacts.

Variable requests_post : string -> pydict string pyval -> response.

(** X19: [compare_lockfiles] hands a comment back exactly when the
    service answers with a JSON object whose "status" is the string "ok"
    and which has a "comment" other than null, and the comment is that
    value; every failure of the request or of the decoding, and every
    other answer, gives [None]. *)
Theorem compare_lockfiles_comment (path : string) (a_text : option string)
    (b_text : string) (for_repo for_pr : option string) (c : pyval) :
  snd (compare_lockfiles requests_post path a_text b_text for_repo for_pr)
  = Some c
  <-> exists res,
        requests_post REMOTE_URL
          (request_json path a_text b_text for_repo for_pr)
        = Json (PDict res)
        /\ dict_get res "status" = Some (PStr "ok")
        /\ dict_get res "comment" = Some c
        /\ c <> PNone.
Proof.
  unfold compare_lockfiles. cbv zeta.
  destruct (requests_post _ _) as [msg| |body]; cbn [snd].
  - split; [discriminate | intros [res [H _]]; discriminate].
  - split; [discriminate | intros [res [H _]]; discriminate].
  - destruct body as [| | | | |l|res];
      try (split; [discriminate | intros [res' [H _]]; discriminate]).
    destruct (dict_get res "status") as [st|] eqn:Est.
    + destruct st as [| | | |status| |];
        try (cbn [snd]; split;
             [discriminate
             | intros [res' [[= <-] [H _]]]; congruence]).
      destruct (String.eqb_spec status "ok") as [->|Hne].
      * destruct (dict_get res "comment") as [cm|] eqn:Ecm.
        -- destruct cm; cbn [snd];
             (split;
              [ intros [= <-]; exists res;
                repeat split; try assumption; discriminate
              | intros [res' [[= <-] [_ [Hc Hn]]]]; congruence ]).
        -- cbn [snd]. split; [discriminate|].
           intros [res' [[= <-] [_ [Hc _]]]]. congruence.
      * cbn [snd]. split; [discriminate|].
        intros [res' [[= <-] [Hs _]]]. congruence.
    + cbn [snd]. split; [discriminate|].
      intros [res' [[= <-] [Hs _]]]. congruence.
Qed.

(** X20: every current lock file is compared once: the keys of
    [changed_targets] followed by those of [introduced_targets] are the
    keys of the current dictionary rearranged; a changed target carries
    its baseline text and its current text, an introduced one has no
    baseline text. *)
Theorem targets_partition (old_text new_text : pydict string string) :
  Permutation (map fst new_text)
    (map fst (changed_targets old_text new_text)
     ++ map fst (introduced_targets old_text new_text))
  /\ (forall t a b, In (t, (a, b)) (changed_targets old_text new_text) ->
        dict_get old_text t = Some a /\ In (t, b) new_text)
  /\ (forall t b, In (t, b) (introduced_targets old_text new_text) ->
        dict_get old_text t = None /\ In (t, b) new_text).
Proof.
  split; [|split].
  - unfold changed_targets, introduced_targets, dict_mem.
    induction new_text as [|[t b] items IH]; [constructor|].
    cbn [flat_map filter fst snd map].
    destruct (dict_get old_text t) as [a|]; cbn [negb app map fst].
    + now constructor.
    + now apply Permutation_cons_app.
  - intros t a b Hin. unfold changed_targets in Hin.
    apply in_flat_map in Hin as [[t' b'] [Hitem Hin]]. cbn [fst snd] in Hin.
    destruct (dict_get old_text t') as [a'|] eqn:E; [|destruct Hin].
    destruct Hin as [[= <- <- <-]|[]]. now split.
  - intros t b Hin. unfold introduced_targets, dict_mem in Hin.
    apply filter_In in Hin as [Hin Hmem]. cbn [fst] in Hmem.
    split; [|assumption].
    now destruct (dict_get old_text t).
Qed.

Lemma compare_changed_none (for_repo for_pr : option string)
    (items : pydict string (string * string)) (res : string) :
  (forall path a b,
     snd (compare_lockfiles requests_post path a b for_repo for_pr) = None) ->
  compare_changed requests_post for_repo for_pr items res = Ok res.
Proof.
  intros Hnone. induction items as [|[path [a b]] items IH]; [reflexivity|].
  cbn [compare_changed]. now rewrite Hnone.
Qed.

Lemma compare_introduced_none (for_repo for_pr : option string)
    (items : pydict string string) (res : string) :
  (forall path a b,
     snd (compare_lockfiles requests_post path a b for_repo for_pr) = None) ->
  compare_introduced requests_post for_repo for_pr items res = Ok res.
Proof.
  intros Hnone. induction items as [|[path a] items IH]; [reflexivity|].
  cbn [compare_introduced]. now rewrite Hnone.
Qed.

(** X21: when no comparison gives a comment no file is written, whether
    [GITHUB_ENV] is set or not, and nothing is raised. *)
Theorem report_nothing_without_comment
    (old_text new_text : pydict string string)
    (for_repo for_pr GITHUB_ENV : option string) :
  (forall path a b,
     snd (compare_lockfiles requests_post path a b for_repo for_pr) = None) ->
  report_comparisons requests_post old_text new_text for_repo for_pr
    GITHUB_ENV = Ok None.
Proof.
  intros Hnone. unfold report_comparisons.
  rewrite compare_changed_none, compare_introduced_none by assumption.
  reflexivity.
Qed.

(** X22: lock files that are in the baseline only play no part: two
    baseline dictionaries that agree on the current lock files give the
    same report. *)
Theorem report_ignores_deleted
    (old_text old_text' new_text : pydict string string)
    (for_repo for_pr GITHUB_ENV : option string) :
  (forall t, In t (map fst new_text) ->
     dict_get old_text t = dict_get old_text' t) ->
  report_comparisons requests_post old_text new_text for_repo for_pr
    GITHUB_ENV
  = report_comparisons requests_post old_text' new_text for_repo for_pr
      GITHUB_ENV.
Proof.
  intros H. unfold report_comparisons.
  assert (Hc : changed_targets old_text new_text
               = changed_targets old_text' new_text).
  { unfold changed_targets. induction new_text as [|[t b] items IH];
      [reflexivity|].
    cbn [flat_map fst snd]. rewrite (H t) by now left.
    f_equal. apply IH. intros t' Ht'. apply H. now right. }
  assert (Hi : introduced_targets old_text new_text
               = introduced_targets old_text' new_text).
  { clear Hc. unfold introduced_targets, dict_mem.
    induction new_text as [|[t b] items IH]; [reflexivity|].
    cbn [filter fst]. rewrite (H t) by now left.
    rewrite IH; [reflexivity|]. intros t' Ht'. apply H. now right. }
  now rewrite Hc, Hi.
Qed.

End CompareFacts.

End LockfilesFacts.

(** ** The ignore file *)

Module SemgrepignoreFacts.
Import PyStr PyStrFacts Semgrepignore.

(** The lines of two texts joined by a newline are the lines of the one
    followed by the lines of the other. *)
Lemma split_lines_newline (a b : string) :
  split_lines (a ++ String newline b)
  = (split_lines a ++ split_lines b)%list.
Proof.
  induction a as [|c a IH]; [reflexivity|].
  cbn [String.append split_lines]. rewrite IH.
  destruct (Ascii.eqb c newline); [reflexivity|].
  pose proof (split_lines_not_nil a) as Hne.
  now destruct (split_lines a).
Qed.

(** X23: without further patterns the ignore file is the text of
    [.semgrepignore] when that file exists, of the packaged default
    otherwise; with patterns (none of them holding a newline) its lines
    are those of that text, then the line "# Ignores from semgrep app",
    then the patterns in order, then an empty line. *)
Theorem get_semgrepignore_lines (dot_semgrepignore : option string)
    (template : string) (ignore_patterns : list string) :
  let base := match dot_semgrepignore with
              | Some text => text
              | None => template
              end in
  let contents :=
    snd (get_semgrepignore dot_semgrepignore template ignore_patterns) in
  (ignore_patterns = [] -> contents = base)
  /\ (ignore_patterns <> [] ->
      Forall (fun p => no_newline p = true) ignore_patterns ->
      split_lines contents
      = (split_lines base
         ++ "# Ignores from semgrep app" :: ignore_patterns
         ++ [EmptyString])%list).
Proof.
  intros base contents. unfold contents, base, get_semgrepignore.
  split.
  - intros ->. now destruct dot_semgrepignore.
  - intros Hne Hall.
    destruct ignore_patterns as [|p ps]; [congruence|].
    assert (Hlines : forall text,
              split_lines
                (text ++ String newline "# Ignores from semgrep app"
                      ++ String newline EmptyString
                      ++ join_lines (p :: ps)
                      ++ String newline EmptyString)
              = (split_lines text
                 ++ "# Ignores from semgrep app" :: (p :: ps)
                 ++ [EmptyString])%list).
    { intros text.
      change (String newline "# Ignores from semgrep app"
                ++ String newline EmptyString
                ++ join_lines (p :: ps) ++ String newline EmptyString)
        with (String newline
                ("# Ignores from semgrep app"
                   ++ String newline
                        (join_lines (p :: ps) ++ String newline EmptyString))).
      rewrite split_lines_newline. f_equal.
      rewrite split_lines_newline, split_lines_newline.
      rewrite split_join by (assumption || discriminate).
      reflexivity. }
    destruct dot_semgrepignore; cbn [snd]; apply Hlines.
Qed.

End SemgrepignoreFacts.

(** ** The aligned messages of [main.py] *)

Module MainFacts.
Import Main.

Lemma len_app (a b : string) : len (a ++ b) = (len a + len b)%nat.
Proof.
  induction a as [|c a IH]; [reflexivity|].
  cbn [String.append len]. rewrite IH.
  now destruct ((128 <=? Z.of_N (N_of_ascii c))
                && (Z.of_N (N_of_ascii c) <? 192)).
Qed.

Lemma app_empty_r (a : string) : a ++ EmptyString = a.
Proof. induction a as [|c a IH]; cbn; [reflexivity | now rewrite IH]. Qed.

Lemma len_spaces (n : nat) : len (spaces n) = n.
Proof. induction n as [|n IH]; [reflexivity|]. cbn. now rewrite IH. Qed.

(** X24: the title is never cut; a title of at most 17 characters is
    padded so that the text after it starts 22 characters into the
    line, and a longer one is followed by " - " at once. *)
Theorem get_aligned_command_columns (title subtext : string) :
  ((len title <= 17)%nat ->
   exists pad,
     get_aligned_command title subtext
     = ("| " ++ title ++ pad) ++ " - " ++ subtext
     /\ PyStr.all_chars (Ascii.eqb PyStr.space) pad = true
     /\ len (("| " ++ title ++ pad) ++ " - ") = 22%nat)
  /\ ((17 < len title)%nat ->
      get_aligned_command title subtext
      = "| " ++ title ++ " - " ++ subtext).
Proof.
  unfold get_aligned_command, ljust. split.
  - intros Hlen. exists (spaces (17 - len title)).
    split; [|split].
    + cbn [String.append]. now rewrite PyStrFacts.app_assoc.
    + induction (17 - len title)%nat as [|n IH]; [reflexivity | exact IH].
    + rewrite !len_app, len_spaces.
      change (len "| ") with 2%nat. change (len " - ") with 3%nat. lia.
  - intros Hlen. replace (17 - len title)%nat with 0%nat by lia.
    cbn [spaces]. now rewrite app_empty_r.
Qed.

End MainFacts.

(** ** Results of a [bento] scan *)

Module BentoFacts.
Import Bento.

Lemma set_commit_dates_spec (commit_date : string) (fs fs' : list pyval) :
  set_commit_dates commit_date fs = Ok fs' ->
  Forall2
    (fun f f' =>
       exists d, f = PDict d
                 /\ f' = PDict (dict_set d "commit_date" (PStr commit_date)))
    fs fs'.
Proof.
  revert fs'; induction fs as [|f fs IH]; intros fs' H.
  - cbn in H. injection H as <-. constructor.
  - cbn [set_commit_dates] in H.
    destruct (set_commit_date commit_date f) as [f1|e] eqn:Ef;
      [|discriminate].
    destruct (set_commit_dates commit_date fs) as [fs1|e] eqn:Efs;
      [|discriminate].
    injection H as <-. constructor; [|now apply IH].
    destruct f; try discriminate. cbn in Ef. injection Ef as <-.
    now eexists.
Qed.

Lemma augment_shapes (commit_date : string) (v v' : pyval) :
  augment commit_date v = Ok v' ->
  (exists fs fs', v = PList fs /\ v' = PList fs'
                  /\ set_commit_dates commit_date fs = Ok fs')
  \/ (v = PDict [] /\ v' = PDict [])
  \/ (v = PStr EmptyString /\ v' = PStr EmptyString).
Proof.
  destruct v as [| | | |s|fs|d]; cbn; try discriminate.
  - destruct s; [|discriminate]. intros [= <-]. right; right. now split.
  - destruct (set_commit_dates commit_date fs) as [fs'|e] eqn:E;
      [|discriminate].
    intros [= <-]. left. now exists fs, fs'.
  - destruct d; [|discriminate]. intros [= <-]. right; left. now split.
Qed.

Section FromCommandFacts.

Context {rt : Runtime}.
Variable json_loads : string -> result pyval.

(** X25: what [Results.from_sh_command] returns.  It keeps the exit
    code and the time; with nothing on standard output there are no
    findings; and every finding of a returned list is the decoded one
    with "commit_date" set to the ISO text of the commit date, every
    other key as decoded. *)
Theorem from_sh_command_findings (sh_command : RunningCommand)
    (commit : option datetime) (elapsed : pyval) (r : Results) :
  from_sh_command json_loads sh_command commit elapsed = Ok r ->
  exit_code r = cmd_exit_code sh_command
  /\ total_time r = elapsed
  /\ (stdout sh_command = EmptyString -> findings r = None)
  /\ exists dt,
       commit = Some dt
       /\ forall fs, findings r = Some (PList fs) ->
            exists fs0,
              json_loads (stdout sh_command) = Ok (PList fs0)
              /\ Forall2
                   (fun f0 f =>
                      exists d0 d,
                        f0 = PDict d0 /\ f = PDict d
                        /\ dict_get d "commit_date"
                           = Some (PStr (isoformat dt))
                        /\ forall k, k <> "commit_date" ->
                                     dict_get d k = dict_get d0 k)
                   fs0 fs.
Proof.
  unfold from_sh_command.
  destruct commit as [dt|]; [|discriminate].
  destruct (String.eqb_spec (stdout sh_command) EmptyString) as [Hout|Hout];
    cbn [negb].
  - intros [= <-]. cbn. repeat split. exists dt. split; [reflexivity|].
    discriminate.
  - destruct (json_loads (stdout sh_command)) as [v|e]; [|discriminate].
    destruct (augment (isoformat dt) v) as [v'|e] eqn:Ea; [|discriminate].
    intros [= <-]. cbn [exit_code total_time findings].
    split; [reflexivity|]. split; [reflexivity|]. split; [congruence|].
    exists dt. split; [reflexivity|].
    intros fs [= ->].
    apply augment_shapes in Ea
      as [[fs0 [fs' [-> [[= <-] Hset]]]]|[[_ [=]]|[_ [=]]]].
    exists fs0. split; [reflexivity|].
    apply set_commit_dates_spec in Hset.
    induction Hset as [|f0 f l0 l [d [-> ->]] _ IH]; constructor; [|exact IH].
    exists d, (dict_set d "commit_date" (PStr (isoformat dt))).
    repeat split.
    + apply DictFacts.dict_get_set_same.
    + intros k Hk. now apply DictFacts.dict_get_set_other.
Qed.

(** X26: the statistics of a result of [from_sh_command] are computed
    without error, and their "findings" entry is [None] or a positive
    number, never 0: an empty list of findings counts as [None]. *)
Theorem stats_never_zero (sh_command : RunningCommand)
    (commit : option datetime) (elapsed : pyval) (r : Results) :
  from_sh_command json_loads sh_command commit elapsed = Ok r ->
  exists n,
    stats r = Ok [("findings", n); ("total_time", elapsed)]
    /\ (n = PNone \/ exists z, n = PInt z /\ 0 < z).
Proof.
  unfold from_sh_command.
  destruct commit as [dt|]; [|discriminate].
  destruct (negb (String.eqb (stdout sh_command) EmptyString)).
  - destruct (json_loads (stdout sh_command)) as [v|e]; [|discriminate].
    destruct (augment (isoformat dt) v) as [v'|e] eqn:Ea; [|discriminate].
    intros [= <-]. unfold stats. cbn [findings total_time].
    apply augment_shapes in Ea
      as [[fs0 [fs' [-> [-> Hset]]]]|[[_ ->]|[_ ->]]].
    + destruct fs' as [|f fs']; cbn.
      * eexists; split; [reflexivity | now left].
      * eexists; split; [reflexivity|]. right.
        eexists; split; [reflexivity | lia].
    + cbn. eexists; split; [reflexivity | now left].
    + cbn. eexists; split; [reflexivity | now left].
  - intros [= <-]. cbn. eexists; split; [reflexivity | now left].
Qed.

End FromCommandFacts.

End BentoFacts.

(** ** The further results at sample inputs *)

Module Instances.
Import GitHead.

Lemma map_to_set_one_per_identity_witness :
  exists y,
    In y (_map_to_set (rt := Sample.runtime)
            [(Sample.key_A, [Sample.finding_A; Sample.finding_A])])
    /\ identity y = identity (evolve_index Sample.finding_A 1).
Proof.
  refine (proj1 (map_to_set_one_per_identity (rt := Sample.runtime)
                   [(Sample.key_A, [Sample.finding_A; Sample.finding_A])] _)
            (evolve_index Sample.finding_A 1) _).
  - intros x y [<-|[<-|[]]] [<-|[<-|[]]] Hh; try reflexivity;
      vm_compute in Hh; discriminate.
  - right; left; reflexivity.
Defined.

Lemma expensive_new_moved_witness :
  expensive_new (rt := Sample.runtime)
    {| baseline_map := [(Sample.key_A, [Sample.finding_A])];
       current_map := [(Sample.key_A, [Sample.finding_A_moved])] |} = [].
Proof.
  apply (expensive_new_moved (rt := Sample.runtime)).
  intros cs [<-|[]]. exists [Sample.finding_A]. split; [now left|].
  intros [|[|n]] g Hn; try discriminate.
  injection Hn as <-. exists Sample.finding_A. split; reflexivity.
Defined.

Lemma expensive_new_repeated_witness :
  expensive_new (rt := Sample.runtime)
    {| baseline_map := [(Sample.key_A, repeat Sample.finding_A 1)];
       current_map := [(Sample.key_A, repeat Sample.finding_A 3)] |}
  = [evolve_index Sample.finding_A 1; evolve_index Sample.finding_A 2].
Proof.
  refine (expensive_new_repeated (rt := Sample.runtime)
            Sample.key_A Sample.finding_A 1 3 _ _).
  - lia.
  - vm_compute. reflexivity.
Defined.

Lemma syntactic_identifier_str_decodes_witness :
  PyIntInv.from_bytes (PyIntInv.unhexlify "6fc428e8b3b6d2bb17b15b7b0d538c7d")
  = syntactic_identifier_int (rt := Sample.runtime) Sample.finding_A.
Proof.
  refine (proj1 (syntactic_identifier_str_decodes (rt := Sample.runtime)
                   Sample.finding_A "6fc428e8b3b6d2bb17b15b7b0d538c7d" _)).
  vm_compute. reflexivity.
Defined.

Lemma to_dict_entries_witness :
  exists dt,
    commit_date Sample.finding_A = Some dt
    /\ dict_get
         (Fixtures.dict_of (to_dict (rt := Sample.runtime) Sample.finding_A))
         "commit_date"
       = Some (VStr (isoformat (Runtime := Sample.runtime) dt)).
Proof.
  refine (proj1 (proj2 (to_dict_entries (rt := Sample.runtime)
                          Sample.finding_A _ _))).
  vm_compute. reflexivity.
Defined.

Lemma is_blocking_string_value_witness :
  is_blocking Fixtures.finding_unblock = Ok true
  <-> exists pre post, "unblock" = pre ++ "block" ++ post.
Proof.
  refine (proj2 (is_blocking_string_value Fixtures.finding_unblock
                   "unblock" _)).
  reflexivity.
Defined.

Lemma indented_twin_not_new_witness :
  expensive_new (rt := Sample.runtime)
    {| baseline_map :=
         [(fst (from_semgrep_result Sample.a_result None),
           [snd (from_semgrep_result Sample.a_result None)])];
       current_map :=
         [(fst (from_semgrep_result Sample.a_result None),
           [snd (from_semgrep_result Sample.a_result None)]);
          (fst (from_semgrep_result
                  (with_lines Sample.a_result Sample.shifted_lines) None),
           [snd (from_semgrep_result
                   (with_lines Sample.a_result Sample.shifted_lines)
                   None)])] |} = [].
Proof.
  refine (proj2 (indented_twin_not_new (rt := Sample.runtime)
                   Sample.a_result "    " Sample.shifted_lines None _ _ _)).
  - reflexivity.
  - unfold Textwrap.indented_by. vm_compute.
    constructor; [left; reflexivity|].
    constructor; [right; split; reflexivity|].
    constructor; [left; reflexivity|].
    constructor.
  - vm_compute. discriminate.
Defined.

Lemma baseline_failure_is_fatal_witness :
  Simple.run (Some "nowhere") (Some "feature") Simple.body_pass
    Simple.on_main
  = (Err (ErrorReturnCode ["rev-parse"; "nowhere"]),
     Simple.at_state Simple.on_main [GitCmd ["rev-parse"; "nowhere"]]).
Proof.
  refine (GitHeadErrors.baseline_failure_is_fatal (env := Simple.simple)
            "nowhere" (Some "feature") Simple.body_pass
            (Simple.at_state Simple.on_main [])
            (ErrorReturnCode ["rev-parse"; "nowhere"]) Simple.on_main
            _ _ _).
  - discriminate.
  - discriminate.
  - reflexivity.
Defined.

Lemma head_checkout_failure_witness :
  Simple.run None (Some "ghost") Simple.body_pass Simple.on_main
  = (Err (ErrorReturnCode ["checkout"; "ghost"]),
     Simple.at_state Simple.on_main
       [GitCmd ["branch"; "--show-current"];
        Echo "| not on head ref ghost; checking that out now...";
        GitCmd ["checkout"; "ghost"]]).
Proof.
  refine (GitHeadErrors.head_checkout_failure (env := Simple.simple)
            None "ghost" Simple.body_pass
            (Simple.at_state Simple.on_main [])
            (Simple.at_state Simple.on_main [])
            (Simple.at_state Simple.on_main
               [GitCmd ["branch"; "--show-current"]])
            None "main" (ErrorReturnCode ["checkout"; "ghost"])
            Simple.on_main _ _ _ _ _).
  - discriminate.
  - discriminate.
  - reflexivity.
  - reflexivity.
  - reflexivity.
Defined.

Lemma yielded_base_ref_witness :
  exists b out st,
    Some "main" = Some b
    /\ git_exec (Git := Simple.simple) ["rev-parse"; b] Simple.on_main
       = (Ok out, st)
    /\ Some "c2" = Some (rstrip (Git := Simple.simple) out).
Proof.
  refine (proj2 (proj2
            (GitHeadErrors.yielded_base_ref (env := Simple.simple)
               (Some "main") (Some "feature")
               (Simple.at_state Simple.on_main [])
               (snd (Simple.run (Some "main") (Some "feature")
                       (fun b => ret b) Simple.on_main))
               (Some "c2") _)) _ _).
  - reflexivity.
  - reflexivity.
  - discriminate.
Defined.

Lemma get_files_permutation_witness :
  Permutation
    (Lockfiles.get_files_matching_name_insensitive_case
       (ops := Fixtures.posix) Fixtures.some_paths)
    ["web/yarn.lock"; "Pipfile.lock"; "api/PIPFILE.LOCK";
     "web/package-lock.json"].
Proof.
  refine (LockfilesFacts.get_files_permutation (ops := Fixtures.posix)
            Fixtures.some_paths _).
  vm_compute.
  constructor; [intros [H|[H|[]]]; discriminate|].
  constructor; [intros [H|[]]; discriminate|].
  constructor; [intros []|]. constructor.
Defined.

Lemma report_nothing_without_comment_witness :
  Lockfiles.report_comparisons Fixtures.post_down
    [("yarn.lock", "left-pad@1.0.0")]
    [("yarn.lock", "left-pad@1.3.0"); ("Pipfile.lock", "{}")]
    (Some "org/repo") (Some "17") (Some "/tmp/github_env")
  = Ok None.
Proof.
  refine (LockfilesFacts.report_nothing_without_comment Fixtures.post_down
            _ _ _ _ _ _).
  intros path a b. reflexivity.
Defined.

Lemma report_ignores_deleted_witness :
  Lockfiles.report_comparisons Fixtures.post_ok
    [("yarn.lock", "left-pad@1.0.0")]
    [("yarn.lock", "left-pad@1.3.0")] None None (Some "/tmp/github_env")
  = Lockfiles.report_comparisons Fixtures.post_ok
      [("old/Pipfile.lock", "{}"); ("yarn.lock", "left-pad@1.0.0")]
      [("yarn.lock", "left-pad@1.3.0")] None None (Some "/tmp/github_env").
Proof.
  refine (LockfilesFacts.report_ignores_deleted Fixtures.post_ok
            _ _ _ _ _ _ _).
  intros t [<-|[]]. reflexivity.
Defined.

Lemma from_sh_command_findings_witness :
  Bento.exit_code
    (Fixtures.results_of
       (Bento.from_sh_command (rt := Sample.runtime) Fixtures.json_two
          Fixtures.a_command (Some Sample.a_date) (PFloat 0)))
  = 2.
Proof.
  refine (proj1 (BentoFacts.from_sh_command_findings (rt := Sample.runtime)
                   Fixtures.json_two Fixtures.a_command
                   (Some Sample.a_date) (PFloat 0) _ _)).
  vm_compute. reflexivity.
Defined.

Lemma stats_never_zero_witness :
  exists n,
    Bento.stats
      (Fixtures.results_of
         (Bento.from_sh_command (rt := Sample.runtime) Fixtures.json_two
            Fixtures.a_command (Some Sample.a_date) (PFloat 0)))
    = Ok [("findings", n); ("total_time", PFloat 0)]
    /\ (n = PNone \/ exists z, n = PInt z /\ 0 < z).
Proof.
  refine (BentoFacts.stats_never_zero (rt := Sample.runtime)
            Fixtures.json_two Fixtures.a_command
            (Some Sample.a_date) (PFloat 0) _ _).
  vm_compute. reflexivity.
Defined.

End Instances.
